(** * A shallow embedding of the user REST API

    The development follows the layout of the repository:

    - [JS]             the JavaScript primitives the code relies on:
                       truthiness, [trim], [toLowerCase], [parseInt],
                       [indexOf], [splice], the numbers of the pagination;
    - [Model]          models/User.js, the schema: fields, setters, validators;
    - [Mongo]          the interface to the document store: errors, filters,
                       the calls a handler can issue, the programs built
                       from them;
    - [UserModel]      models/User.js, the instance methods and the pre-save
                       hook;
    - [Store]          what the document store answers to the calls, on the
                       fragment of its behaviour that the properties need;
    - [UserController] controllers/userController.js, the request handlers;
    - [Spec], [Sample] the words of the specification, and sample data;
    - [Virtuals], [Pipeline], [Lookup], [ErrorHandler], [Database]
                       the age group virtual, the age buckets of the
                       statistics, the look-up by identifier, the error
                       middleware and the connection manager;
    - [Calls], [Words], [MoreSample] what a handler may ask of the store,
                       further words and sample data;
    - [UserModelFacts], [UserControllerFacts], [ModelExtras],
      [ControllerExtras], [MiddlewareExtras], [UpdateExtras] the properties.

    Strings are sequences of 8-bit code units; every string the properties
    mention is ASCII, where JavaScript's UTF-16 code units and these coincide.
    Numbers are the doubles that the modelled code computes with: integers
    (rounded to 53 significant bits beyond 2^53), the zero with a minus
    sign, [NaN] and the two infinities; every one of them comes out of
    [parseInt], a document count or an integer field. *)

From Stdlib Require Import ZArith List String Ascii Bool Lia DecimalString.
Import ListNotations.

Local Open Scope Z_scope.

(* ===================================================================== *)
(** * JavaScript primitives *)
(* ===================================================================== *)

Module JS.

(** ** Characters and strings *)

Definition code (c : ascii) : Z := Z.of_nat (nat_of_ascii c).

Definition between (lo hi : Z) (c : ascii) : bool :=
  (lo <=? code c) && (code c <=? hi).

Definition isUpper (c : ascii) : bool := between 65 90 c.
Definition isLower (c : ascii) : bool := between 97 122 c.
Definition isLetter (c : ascii) : bool := isUpper c || isLower c.
Definition isDigit (c : ascii) : bool := between 48 57 c.

(** White space and line terminators, as [trim], [parseInt] and the
    regular expression class [\s] see them (ASCII part). *)
Definition isWhiteSpace (c : ascii) : bool :=
  between 9 13 c || (code c =? 32).

Definition lowerChar (c : ascii) : ascii :=
  if isUpper c then ascii_of_nat (nat_of_ascii c + 32) else c.

Definition chars (s : string) : list ascii := list_ascii_of_string s.
Definition str (l : list ascii) : string := string_of_list_ascii l.

(** [String.prototype.toLowerCase] *)
Definition toLowerCase (s : string) : string :=
  str (map lowerChar (chars s)).

Fixpoint dropWhile {A} (p : A -> bool) (l : list A) : list A :=
  match l with
  | [] => []
  | x :: l' => if p x then dropWhile p l' else l
  end.

Definition trimStart (l : list ascii) : list ascii := dropWhile isWhiteSpace l.
Definition trimEnd (l : list ascii) : list ascii :=
  rev (dropWhile isWhiteSpace (rev l)).

(** [String.prototype.trim] *)
Definition trim (s : string) : string := str (trimEnd (trimStart (chars s))).

(** [s.length] *)
Definition length (s : string) : Z := Z.of_nat (String.length s).

(** ** Truthiness *)

(** A string that may be [undefined]: truthy when defined and non-empty. *)
Definition truthyStr (s : option string) : bool :=
  match s with
  | Some s => negb (String.eqb s EmptyString)
  | None => false
  end.

(** A number that may be [null]: truthy when set and not zero. *)
Definition truthyNum (n : option Z) : bool :=
  match n with
  | Some n => negb (n =? 0)
  | None => false
  end.

(** ** Numbers *)

(** The doubles with an integer value, and the special ones. [Int z] is
    the double whose value is [z] ([Int 0] is the zero with a plus sign);
    the operations below only build it for a [z] that a double holds. *)
Inductive Num : Type :=
| NaN
| Int (z : Z)
| NegZero
| PosInf
| NegInf.

(** The double nearest to an integer: the integer itself below 2^53 in
    magnitude; beyond, the integer rounded to 53 significant bits, a tie
    going to the even one; an infinity once the rounding reaches 2^1024. *)
Definition toDouble (z : Z) : Num :=
  let a := Z.abs z in
  if a <? 2 ^ 53 then Int z
  else
    let e := Z.log2 a - 52 in
    let q := Z.shiftr a e in
    let r := a - Z.shiftl q e in
    let half := Z.shiftl 1 (e - 1) in
    let q := if (half <? r) || ((r =? half) && Z.odd q) then q + 1 else q in
    let m := Z.shiftl q e in
    if 2 ^ 1024 <=? m then (if z <? 0 then NegInf else PosInf)
    else Int (Z.sgn z * m).

Definition isNaN (a : Num) : bool :=
  match a with NaN => true | _ => false end.

(** The sign bit. *)
Definition negative (a : Num) : bool :=
  match a with
  | Int z => z <? 0
  | NegZero | NegInf => true
  | NaN | PosInf => false
  end.

(** The value of a finite number. *)
Definition finite (a : Num) : option Z :=
  match a with
  | Int z => Some z
  | NegZero => Some 0
  | NaN | PosInf | NegInf => None
  end.

(** [a < b]: false as soon as one side is [NaN]; the two zeros are equal. *)
Definition lt (a b : Num) : bool :=
  match a, b with
  | NaN, _ | _, NaN => false
  | NegInf, NegInf => false
  | NegInf, _ => true
  | _, NegInf => false
  | PosInf, _ => false
  | _, PosInf => true
  | _, _ =>
      match finite a, finite b with
      | Some x, Some y => x <? y
      | _, _ => false
      end
  end.

Definition gt (a b : Num) : bool := lt b a.

(** [a - 1] *)
Definition pred (a : Num) : Num :=
  match a with
  | Int x => toDouble (x - 1)
  | NegZero => Int (-1)
  | other => other
  end.

(** [a * b]: the product rounded to a double; a zero result takes the sign
    of the product of the signs, zero times an infinity is [NaN]. *)
Definition mul (a b : Num) : Num :=
  let minus := xorb (negative a) (negative b) in
  if isNaN a || isNaN b then NaN
  else
    match finite a, finite b with
    | Some x, Some y =>
        if x * y =? 0 then (if minus then NegZero else Int 0)
        else toDouble (x * y)
    | Some x, None | None, Some x =>
        if x =? 0 then NaN else if minus then NegInf else PosInf
    | None, None => if minus then NegInf else PosInf
    end.

(** [Math.ceil(n / d)] for a count [n] and a divisor [d]. A count is a
    non-negative integer below 2^53; there the rounding of the quotient to
    a double never crosses an integer, and the result is the ceiling of the
    exact quotient. Z's division rounds down whatever the sign of the
    divisor, so the ceiling is the opposite of the floor of the opposite.
    A positive count over a zero is an infinity with the sign of the zero;
    a quotient between -1 and 0, or zero over a negative divisor, gives the
    zero with a minus sign. *)
Definition ceilDiv (n : Z) (d : Num) : Num :=
  match d with
  | NaN => NaN
  | Int 0 => if n =? 0 then NaN else PosInf
  | NegZero => if n =? 0 then NaN else NegInf
  | Int d =>
      let c := - ((- n) / d) in
      if (c =? 0) && (d <? 0) then NegZero else Int c
  | PosInf => Int 0
  | NegInf => NegZero
  end.

(** ** [parseInt(s)], no radix given

    The longest prefix of digits is read as an integer; the result is the
    double nearest to it, with the sign read before the digits, and the
    zero with a minus sign for a negative zero. Every digit is read: the
    language lets an implementation take the decimal digits after the 20th
    for zeros, which can only move the result to a neighbouring double. *)

Definition digitVal (radix : Z) (c : ascii) : option Z :=
  let v :=
    if isDigit c then code c - 48
    else if isLower c then code c - 87
    else if isUpper c then code c - 55
    else radix in
  if v <? radix then Some v else None.

(** The value of the longest prefix of digits; [acc] is [None] until a
    digit has been read. *)
Fixpoint parseDigits (radix : Z) (acc : option Z) (l : list ascii) : option Z :=
  match l with
  | [] => acc
  | c :: l' =>
      match digitVal radix c with
      | Some v =>
          parseDigits radix
            (Some (match acc with Some a => a * radix + v | None => v end)) l'
      | None => acc
      end
  end.

Definition hexPrefix (l : list ascii) : option (list ascii) :=
  match l with
  | "0"%char :: "x"%char :: l' => Some l'
  | "0"%char :: "X"%char :: l' => Some l'
  | _ => None
  end.

Definition parseIntChars (l : list ascii) : Num :=
  let l := trimStart l in
  let '(sign, l) :=
    match l with
    | "-"%char :: l' => (-1, l')
    | "+"%char :: l' => (1, l')
    | _ => (1, l)
    end in
  let '(radix, l) :=
    match hexPrefix l with
    | Some l' => (16, l')
    | None => (10, l)
    end in
  match parseDigits radix None l with
  | Some v => if (v =? 0) && (sign <? 0) then NegZero else toDouble (sign * v)
  | None => NaN
  end.

Definition parseInt (s : string) : Num := parseIntChars (chars s).

(** ** Arrays *)

(** [l.includes(x)] on an array of strings *)
Definition includes (l : list string) (x : string) : bool :=
  existsb (String.eqb x) l.

(** [l.indexOf(x)]: the first index holding [x], or -1 *)
Fixpoint indexOf (l : list string) (x : string) : Z :=
  match l with
  | [] => -1
  | y :: l' =>
      if String.eqb y x then 0
      else let i := indexOf l' x in
           if i <? 0 then -1 else i + 1
  end.

(** [l.splice(start, 1)] for [0 <= start]: what is left of [l]; nothing
    is removed when [start] is past the end. *)
Definition splice1 {A} (l : list A) (start : Z) : list A :=
  firstn (Z.to_nat start) l ++ skipn (S (Z.to_nat start)) l.

End JS.

(* ===================================================================== *)
(** * models/User.js: the schema *)
(* ===================================================================== *)

Module Model.

Import JS.

(** A User document in memory, after Mongoose's casts: [name] and [email]
    may be undefined, [age] is a number or [null]. *)
Record User : Type := mkUser {
  name : option string;
  email : option string;
  age : option Z;
  hobbies : list string;
  isActive : bool;
  profileScore : Z
}.

Definition set_name (v : option string) (u : User) : User :=
  mkUser v (email u) (age u) (hobbies u) (isActive u) (profileScore u).
Definition set_email (v : option string) (u : User) : User :=
  mkUser (name u) v (age u) (hobbies u) (isActive u) (profileScore u).
Definition set_age (v : option Z) (u : User) : User :=
  mkUser (name u) (email u) v (hobbies u) (isActive u) (profileScore u).
Definition set_hobbies (v : list string) (u : User) : User :=
  mkUser (name u) (email u) (age u) v (isActive u) (profileScore u).
Definition set_isActive (v : bool) (u : User) : User :=
  mkUser (name u) (email u) (age u) (hobbies u) v (profileScore u).
Definition set_profileScore (v : Z) (u : User) : User :=
  mkUser (name u) (email u) (age u) (hobbies u) (isActive u) v.

(** The paths of the schema; [PHobby i] is the path [hobbies.i]. *)
Inductive Path : Type :=
| PName | PEmail | PAge | PHobbies | PHobby (i : nat) | PProfileScore.

(** ** Setters ([trim], [lowercase]) *)

Definition nameSetter (v : string) : string := trim v.
Definition emailSetter (v : string) : string := trim (toLowerCase v).
Definition hobbySetter (v : string) : string := trim v.

(** ** Validators *)

(** [required] on a String path: defined and not empty. *)
Definition required (v : option string) : bool := truthyStr v.

(** /^[a-zA-Z\s\-']{2,100}$/ *)
Definition nameChar (c : ascii) : bool :=
  isLetter c || isWhiteSpace c || (code c =? 45) || (code c =? 39).

Definition namePattern (v : string) : bool :=
  forallb nameChar (chars v) && (2 <=? length v) && (length v <=? 100).

(** /^[a-zA-Z0-9._%+-]+@[a-zA-Z0-9.-]+\.[a-zA-Z]{2,}$/

    No class of the pattern holds the at sign, so the local part ends at
    the first one; the last class holds no dot, so the final group starts
    after the last dot. *)
Definition localChar (c : ascii) : bool :=
  isLetter c || isDigit c
  || (code c =? 46) || (code c =? 95) || (code c =? 37)
  || (code c =? 43) || (code c =? 45).

Definition domainChar (c : ascii) : bool :=
  isLetter c || isDigit c || (code c =? 46) || (code c =? 45).

Definition isAt (c : ascii) : bool := code c =? 64.
Definition isDot (c : ascii) : bool := code c =? 46.

(** The part of [l] before the first [x] satisfying [p], and the part
    after it; [None] when there is none. *)
Fixpoint splitFirst {A} (p : A -> bool) (l : list A) : option (list A * list A) :=
  match l with
  | [] => None
  | x :: l' =>
      if p x then Some ([], l')
      else match splitFirst p l' with
           | Some (a, b) => Some (x :: a, b)
           | None => None
           end
  end.

Definition splitLast {A} (p : A -> bool) (l : list A) : option (list A * list A) :=
  match splitFirst p (rev l) with
  | Some (b, a) => Some (rev a, rev b)
  | None => None
  end.

Definition nonEmpty {A} (l : list A) : bool :=
  match l with [] => false | _ => true end.

Definition emailPattern (v : string) : bool :=
  match splitFirst isAt (chars v) with
  | None => false
  | Some (loc, rest) =>
      nonEmpty loc && forallb localChar loc &&
      match splitLast isDot rest with
      | None => false
      | Some (dom, tld) =>
          nonEmpty dom && forallb domainChar dom &&
          (2 <=? Z.of_nat (List.length tld)) && forallb isLetter tld
      end
  end.

Definition disposableDomains : list string :=
  ["tempmail.com"; "throwaway.com"]%string.

(** [v.split('@')[1]] of a string that holds an at sign: what lies
    between the first at sign and the next one (or the end). *)
Definition domainOf (v : string) : option string :=
  match splitFirst isAt (chars v) with
  | None => None
  | Some (_, rest) =>
      match splitFirst isAt rest with
      | Some (d, _) => Some (str d)
      | None => Some (str rest)
      end
  end.

(** The custom validator of [email]; a string without an at sign makes it
    throw, which Mongoose reports as a failure. *)
Definition notDisposable (v : string) : bool :=
  match domainOf v with
  | Some d => negb (includes disposableDomains (toLowerCase d))
  | None => false
  end.

(** Mongoose runs the validators of a path in the order of their
    declaration and keeps the first failure; a path that is not set only
    runs [required]. *)
Definition validateName (v : option string) : option string :=
  if negb (required v) then Some "Name is required"%string
  else match v with
       | None => None
       | Some s =>
           if length s <? 2 then
             Some "Name must be at least 2 characters long"%string
           else if 100 <? length s then
             Some "Name cannot exceed 100 characters"%string
           else if negb (namePattern s) then
             Some (s ++ " is not a valid name!")%string
           else None
       end.

Definition validateEmail (v : option string) : option string :=
  if negb (required v) then Some "Email is required"%string
  else match v with
       | None => None
       | Some s =>
           if negb (emailPattern s) then
             Some "Please enter a valid email address"%string
           else if negb (notDisposable s) then
             Some "Disposable email addresses are not allowed"%string
           else None
       end.

Definition validateAge (v : option Z) : option string :=
  match v with
  | None => None
  | Some n =>
      if n <? 13 then Some "Age must be at least 13"%string
      else if 120 <? n then Some "Age cannot exceed 120 years"%string
      else None
  end.

Definition validateHobby (h : string) : option string :=
  if length h <? 2 then Some "Hobby must be at least 2 characters"%string
  else if 50 <? length h then Some "Hobby cannot exceed 50 characters"%string
  else None.

Definition validateHobbies (v : list string) : option string :=
  if Z.of_nat (List.length v) <=? 10 then None
  else Some "Cannot have more than 10 hobbies"%string.

Definition validateProfileScore (v : Z) : option string :=
  if v <? 0 then Some "Path `profileScore` is less than minimum allowed value (0)."%string
  else if 100 <? v then
    Some "Path `profileScore` is more than maximum allowed value (100)."%string
  else None.

Definition report (p : Path) (e : option string) : list (Path * string) :=
  match e with
  | Some m => [(p, m)]
  | None => []
  end.

Fixpoint validateEach (i : nat) (l : list string) : list (Path * string) :=
  match l with
  | [] => []
  | h :: l' => report (PHobby i) (validateHobby h) ++ validateEach (S i) l'
  end.

(** The field errors of a whole document, one message per offending
    path; the document is valid when there is none. *)
Definition validate (u : User) : list (Path * string) :=
  report PName (validateName (name u))
  ++ report PEmail (validateEmail (email u))
  ++ report PAge (validateAge (age u))
  ++ validateEach 0 (hobbies u)
  ++ report PHobbies (validateHobbies (hobbies u))
  ++ report PProfileScore (validateProfileScore (profileScore u)).

Definition valid (u : User) : bool :=
  match validate u with [] => true | _ => false end.

End Model.

(* ===================================================================== *)
(** * The interface to the document store *)
(* ===================================================================== *)

Module Mongo.

Import JS Model.

(** What a call to Mongoose can be rejected with; the handlers tell the
    errors apart by [name] and by [code] (11000 for a duplicate key). *)
Inductive Error : Type :=
| ValidationError (errors : list (Path * string))
| DuplicateKey
| CastError
| OtherError.

Inductive Result (A : Type) : Type :=
| Ok (a : A)
| Err (e : Error).
Arguments Ok {A} a.
Arguments Err {A} e.

(** A stored document: the fields of the schema under an identifier. *)
Record Doc : Type := mkDoc { _id : string; fields : User }.

(** ** Filters *)

Inductive Field : Type := FId | FName | FEmail | FAge | FHobbies | FIsActive.

Inductive Cond : Type :=
| Regex (pattern : string)        (* { $regex: pattern, $options: 'i' } *)
| Range (gte lte : option Num)    (* { $gte: .., $lte: .. }, each optional *)
| EqStr (v : string)              (* a string to be equal to, or to hold *)
| NeStr (v : string)              (* { $ne: v } *)
| EqBool (b : bool).

(** A key of the filter object with its condition, or an [$or] of such. *)
Inductive Clause : Type :=
| On (f : Field) (c : Cond)
| Or (alts : list (Field * Cond)).

Definition Query : Type := list Clause.

Record FindOptions : Type := mkOptions {
  sort : option (string * Z);     (* { [sortBy]: sortOrder } *)
  skip : option Num;
  limit : option Num
}.

(** ** What the handlers hand over to Mongoose *)

(** A value of a JSON body where a number or a string is expected. *)
Inductive Json : Type := JNull | JNum (n : Num) | JStr (s : string).

(** The [userData] of [createUser]. *)
Record UserData : Type := mkUserData {
  d_name : string;
  d_email : string;
  d_age : option Num;
  d_hobbies : list string
}.

(** The [updateData] of [updateUser], a copy of the whole body: the keys
    that the schema knows, each present or not, and whatever else the body
    holds. [hobbies] is under [u_hobbies] when it is an array and under
    [u_hobbiesOther] when it is another value; [u_rest] lists every other
    key (an update operator such as [$inc], a path unknown to the schema)
    with the text of its value. *)
Record UpdateData : Type := mkBody {
  u_name : option string;
  u_email : option string;
  u_age : option Json;
  u_hobbies : option (list string);
  u_isActive : option bool;
  u_profileScore : option Z;
  u_hobbiesOther : option Json;
  u_rest : list (string * string)
}.

(** A body made of keys of the schema only, [hobbies] an array. *)
Definition mkUpdate (name email : option string) (age : option Json)
           (hobbies : option (list string)) (isActive : option bool)
           (profileScore : option Z) : UpdateData :=
  mkBody name email age hobbies isActive profileScore None [].

(** The facets of the statistics pipeline that the properties read: a facet
    with no input document is an empty array. *)
Record ScoreGroup : Type := mkScoreGroup { minScore : Z; maxScore : Z }.

Record Facets : Type := mkFacets {
  totalCount : option Z;
  activeCount : option Z;
  profileScores : option ScoreGroup
}.

(** ** Calls and programs *)

Inductive DbCall : Type -> Type :=
| FindOne (q : Query) : DbCall (Result (option Doc))
| Create (data : UserData) : DbCall (Result User)
    (* [new User(userData)] followed by [save] *)
| Save (this : User) : DbCall (Result User)
    (* [this.save()] on a document already built *)
| FindByIdAndUpdate (id : string) (upd : UpdateData) : DbCall (Result (option Doc))
    (* with [new: true] and [runValidators: true] *)
| Find (q : Query) (o : FindOptions) : DbCall (Result (list Doc))
| CountDocuments (q : Query) : DbCall (Result Z)
| Aggregate : DbCall (Result Facets).

(** A computation that answers with an [R] after a finite number of calls:
    what an [async] function of the repository is, seen from outside. *)
Inductive Prog (R : Type) : Type :=
| Ret (r : R)
| Call {X : Type} (c : DbCall X) (k : X -> Prog R).
Arguments Ret {R} r.
Arguments Call {R X} c k.

Fixpoint bind {A B : Type} (p : Prog A) (f : A -> Prog B) : Prog B :=
  match p with
  | Ret a => f a
  | Call c k => Call c (fun x => bind (k x) f)
  end.

Declare Scope prog_scope.
Delimit Scope prog_scope with prog.
Notation "x <- p ;; q" := (bind p (fun x => q))
  (at level 100, p at next level, right associativity) : prog_scope.

(** [await]: issue the call and go on with its answer. *)
Definition await {X : Type} (c : DbCall X) : Prog X := Call c Ret.


(** What the store answers to a call in a state [S], and the state it is
    left in; [None] where its behaviour is not modelled. *)
Definition Answers (S : Type) : Type :=
  forall X : Type, DbCall X -> S -> option (X * S).

Fixpoint interp {S R : Type} (h : Answers S) (p : Prog R) (s : S) : option (R * S) :=
  match p with
  | Ret r => Some (r, s)
  | Call c k =>
      match h _ c s with
      | Some (x, s') => interp h (k x) s'
      | None => None
      end
  end.

End Mongo.

(* ===================================================================== *)
(** * models/User.js: instance methods and middleware *)
(* ===================================================================== *)

Module UserModel.

Import JS Model Mongo.
Local Open Scope prog_scope.

(** [this.hobbies.push(hobby)]: the array of the document casts what it
    is given as an entry of the schema, whose setter trims it. *)
Definition push (this : User) (hobby : string) : User :=
  set_hobbies (hobbies this ++ [hobbySetter hobby]) this.

Definition addHobby (this : User) (hobby : string) : Prog (Result User) :=
  if negb (includes (hobbies this) hobby)
     && (Z.of_nat (List.length (hobbies this)) <? 10)
  then await (Save (push this hobby))
  else Ret (Ok this).

Definition removeHobby (this : User) (hobby : string) : Prog (Result User) :=
  let index := indexOf (hobbies this) hobby in
  if -1 <? index
  then await (Save (set_hobbies (splice1 (hobbies this) index) this))
  else Ret (Ok this).

(** The local [score] of [updateProfileScore] when it is assigned to
    [this.profileScore]. *)
Definition score (this : User) : Z :=
  let score := 0 in
  let score :=
    if truthyStr (name this)
       && match name this with Some n => 2 <=? length n | None => false end
    then score + 20 else score in
  let score := if truthyStr (email this) then score + 30 else score in
  let score := if truthyNum (age this) then score + 20 else score in
  score + Z.min (Z.of_nat (List.length (hobbies this)) * 3) 30.

Definition updateProfileScore (this : User) : Prog (Result User) :=
  await (Save (set_profileScore (score this) this)).

(** [userSchema.pre('save', ...)]: a rejection of the awaited promise
    leaves the hook before the e-mail is touched. *)
Definition preSave (this : User) : Prog (Result User) :=
  r <- updateProfileScore this ;;
  match r with
  | Err e => Ret (Err e)
  | Ok this =>
      Ret (Ok (match email this with
               | Some e => if truthyStr (Some e)
                           then set_email (Some (toLowerCase e)) this
                           else this
               | None => this
               end))
  end.

End UserModel.

(* ===================================================================== *)
(** * The document store *)
(* ===================================================================== *)

(** What MongoDB, driven by Mongoose, answers to the calls of the handlers.
    None of this is code of the repository: it is the behaviour the
    repository relies on, written down for the fragment the properties
    below exercise. A call outside the fragment has no answer here
    ([None]), so that nothing is proved about it by accident:
    - regular expressions are those made of literal characters and of the
      dot; any other metacharacter is outside;
    - a [NaN] as a bound on the age is refused with a [CastError];
    - [Find] with a [sort] is answered when at most one document matches,
      where the order cannot matter; [skip] is a non-negative integer,
      [limit] a non-negative integer too, zero meaning no limit;
    - identifiers are ObjectIds written in hexadecimal, compared by value:
      the letter case of the digits does not matter;
    - an update with an operator, an unknown path or a [hobbies] that is
      not an array is outside;
    - [Save] and [Create] are outside: a save runs the pre-save hook of the
      schema, which saves again through [updateProfileScore], and how that
      second save is treated is Mongoose's business. *)

Module Store.

Import JS Model Mongo.

Definition Collection : Type := list Doc.

(** ** Regular expressions, case-insensitive and unanchored *)

Inductive Atom : Type :=
| Lit (c : ascii)
| AnyChar.

(** The characters with a meaning of their own in a pattern:
    . \ ^ $ | ? * + ( ) [ ] { } *)
Definition metachar (c : ascii) : bool :=
  existsb (Z.eqb (code c)) [46; 92; 94; 36; 124; 63; 42; 43; 40; 41; 91; 93; 123; 125].

Fixpoint compile (pattern : list ascii) : option (list Atom) :=
  match pattern with
  | [] => Some []
  | c :: p =>
      match compile p with
      | None => None
      | Some atoms =>
          if isDot c then Some (AnyChar :: atoms)
          else if metachar c then None
          else Some (Lit c :: atoms)
      end
  end.

Definition atomMatches (a : Atom) (c : ascii) : bool :=
  match a with
  | Lit x => Ascii.eqb (lowerChar x) (lowerChar c)
  | AnyChar => negb (code c =? 10)
  end.

(** The atoms match a prefix of the subject. *)
Fixpoint matchHere (atoms : list Atom) (subject : list ascii) : bool :=
  match atoms, subject with
  | [], _ => true
  | _ :: _, [] => false
  | a :: atoms', c :: subject' => atomMatches a c && matchHere atoms' subject'
  end.

(** The atoms match somewhere in the subject. *)
Fixpoint matchAnywhere (atoms : list Atom) (subject : list ascii) : bool :=
  matchHere atoms subject
  || match subject with
     | [] => false
     | _ :: subject' => matchAnywhere atoms subject'
     end.

Definition regexTest (pattern subject : string) : option bool :=
  match compile (chars pattern) with
  | Some atoms => Some (matchAnywhere atoms (chars subject))
  | None => None
  end.

(** ** Filters *)

Definition anyOpt {A} (f : A -> option bool) (l : list A) : option bool :=
  fold_right
    (fun x acc =>
       match f x, acc with
       | Some b, Some b' => Some (b || b')
       | _, _ => None
       end)
    (Some false) l.

Definition allOpt {A} (f : A -> option bool) (l : list A) : option bool :=
  fold_right
    (fun x acc =>
       match f x, acc with
       | Some b, Some b' => Some (b && b')
       | _, _ => None
       end)
    (Some true) l.

Definition inRange (gte lte : option Num) (a : option Z) : option bool :=
  match gte, lte with
  | Some NaN, _ | _, Some NaN => None
  | _, _ =>
      Some match a with
           | None => false
           | Some a =>
               match gte with Some b => negb (lt (Int a) b) | None => true end
               && match lte with Some b => negb (lt b (Int a)) | None => true end
           end
  end.

(** The e-mail of the document is set and is [v]. *)
Definition emailIs (v : string) (d : Doc) : bool :=
  match email (fields d) with
  | Some e => String.eqb e v
  | None => false
  end.

(** Two identifiers denote the same ObjectId. *)
Definition sameId (a b : string) : bool :=
  String.eqb (toLowerCase a) (toLowerCase b).

Definition holds (f : Field) (c : Cond) (d : Doc) : option bool :=
  match f, c with
  | FId, EqStr v => Some (sameId (_id d) v)
  | FId, NeStr v => Some (negb (sameId (_id d) v))
  | FName, Regex p =>
      match name (fields d) with
      | Some n => regexTest p n
      | None => option_map (fun _ => false) (regexTest p EmptyString)
      end
  | FEmail, Regex p =>
      match email (fields d) with
      | Some e => regexTest p e
      | None => option_map (fun _ => false) (regexTest p EmptyString)
      end
  | FEmail, EqStr v => Some (emailIs v d)
  | FAge, Range gte lte => inRange gte lte (age (fields d))
  | FHobbies, Regex p => anyOpt (regexTest p) (hobbies (fields d))
  | FHobbies, EqStr v => Some (includes (hobbies (fields d)) v)
  | FIsActive, EqBool b => Some (Bool.eqb (isActive (fields d)) b)
  | _, _ => None
  end.

Definition satisfies (cl : Clause) (d : Doc) : option bool :=
  match cl with
  | On f c => holds f c d
  | Or alts => anyOpt (fun fc => holds (fst fc) (snd fc) d) alts
  end.

Definition matches (q : Query) (d : Doc) : option bool :=
  allOpt (fun cl => satisfies cl d) q.

(** The documents of the collection that match, in their stored order. *)
Fixpoint select (q : Query) (c : Collection) : option (list Doc) :=
  match c with
  | [] => Some []
  | d :: c' =>
      match matches q d, select q c' with
      | Some b, Some l => Some (if b then d :: l else l)
      | _, _ => None
      end
  end.

(** The cast of the filter: a bound on the age that is [NaN] is refused. *)
Definition castFails (q : Query) : bool :=
  existsb
    (fun cl =>
       match cl with
       | On FAge (Range gte lte) =>
           match gte, lte with
           | Some NaN, _ | _, Some NaN => true
           | _, _ => false
           end
       | _ => false
       end) q.

(** The paths a sort is modelled on: those of the schema and the two
    timestamps. *)
Definition sortKeys : list string :=
  ["_id"; "name"; "email"; "age"; "hobbies"; "isActive"; "profileScore";
   "createdAt"; "updatedAt"]%string.

(** A number of documents to skip or to keep that is modelled: a
    non-negative integer on 32 bits. *)
Definition countable (n : Num) : bool :=
  match n with
  | Int n => (0 <=? n) && (n <? 2147483648)
  | NaN | NegZero | PosInf | NegInf => false
  end.

(** The options of a [find] that are modelled. *)
Definition modelled (o : FindOptions) : bool :=
  match sort o with
  | Some (key, _) => includes sortKeys key
  | None => true
  end
  && match skip o with Some n => countable n | None => true end
  && match limit o with Some n => countable n | None => true end.

(** [sort]: with at most one document the order is the only one. *)
Definition applySort (s : option (string * Z)) (docs : list Doc) : option (list Doc) :=
  match s, docs with
  | None, _ => Some docs
  | Some _, ([] | [_]) => Some docs
  | Some _, _ => None
  end.

Definition applySkip (s : option Num) (docs : list Doc) : list Doc :=
  match s with
  | Some (Int n) => skipn (Z.to_nat n) docs
  | _ => docs
  end.

(** [limit]: zero is no limit. *)
Definition applyLimit (l : option Num) (docs : list Doc) : list Doc :=
  match l with
  | Some (Int n) => if 0 <? n then firstn (Z.to_nat n) docs else docs
  | _ => docs
  end.

(** ** Updates *)

(** The cast of [age] to Number; an infinite age is outside the fragment,
    and so is a string other than the empty one. *)
Definition castAge (v : Json) : option (Result (option Z)) :=
  match v with
  | JNull => Some (Ok None)
  | JNum (Int z) => Some (Ok (Some z))
  | JNum NegZero => Some (Ok (Some 0))
  | JNum NaN => Some (Err CastError)
  | JNum (PosInf | NegInf) => None
  | JStr s => if String.eqb s EmptyString then Some (Ok None) else None
  end.

(** The fields of a document after the [$set] of the update. *)
Definition applyUpdate (upd : UpdateData) (age' : option (option Z)) (u : User) : User :=
  let u := match u_name upd with Some v => set_name (Some (nameSetter v)) u | None => u end in
  let u := match u_email upd with Some v => set_email (Some (emailSetter v)) u | None => u end in
  let u := match age' with Some v => set_age v u | None => u end in
  let u := match u_hobbies upd with Some v => set_hobbies (map hobbySetter v) u | None => u end in
  let u := match u_isActive upd with Some v => set_isActive v u | None => u end in
  match u_profileScore upd with Some v => set_profileScore v u | None => u end.

(** The validators of the paths the update sets ([runValidators]). *)
Definition validateUpdate (upd : UpdateData) (age' : option (option Z)) : list (Path * string) :=
  match u_name upd with
  | Some v => report PName (validateName (Some (nameSetter v)))
  | None => []
  end
  ++ match u_email upd with
     | Some v => report PEmail (validateEmail (Some (emailSetter v)))
     | None => []
     end
  ++ match age' with
     | Some v => report PAge (validateAge v)
     | None => []
     end
  ++ match u_hobbies upd with
     | Some v => report PHobbies (validateHobbies v)
     | None => []
     end
  ++ match u_profileScore upd with
     | Some v => report PProfileScore (validateProfileScore v)
     | None => []
     end.

Definition hasId (id : string) (d : Doc) : bool := sameId (_id d) id.

(** The unique index on [email]: another document holds the address. *)
Definition emailTaken (id : string) (e : string) (c : Collection) : bool :=
  existsb (fun d => negb (hasId id d) && emailIs e d) c.

Fixpoint replace (id : string) (f : User -> User) (c : Collection) : Collection :=
  match c with
  | [] => []
  | d :: c' =>
      if hasId id d then mkDoc (_id d) (f (fields d)) :: c'
      else d :: replace id f c'
  end.

(** The cast of the [age] of an update: not set, or set to a value. *)
Definition castUpdateAge (upd : UpdateData) : option (Result (option (option Z))) :=
  match u_age upd with
  | None => Some (Ok None)
  | Some v =>
      match castAge v with
      | Some (Ok a) => Some (Ok (Some a))
      | Some (Err e) => Some (Err e)
      | None => None
      end
  end.

(** Whether an update validates the entries of an array it sets, one by
    one, is left out of the fragment: the hobbies of a modelled update all
    pass the validators of an entry. *)
Definition entriesPass (upd : UpdateData) : bool :=
  match u_hobbies upd with
  | Some hs =>
      forallb (fun h => match validateHobby (hobbySetter h) with
                        | None => true
                        | Some _ => false
                        end) hs
  | None => true
  end.

(** The update is made of paths of the schema, [hobbies] an array. *)
Definition plainUpdate (upd : UpdateData) : bool :=
  match u_hobbiesOther upd, u_rest upd with
  | None, [] => true
  | _, _ => false
  end.

Definition findByIdAndUpdate (id : string) (upd : UpdateData) (c : Collection)
  : option (Result (option Doc) * Collection) :=
  if negb (plainUpdate upd) || negb (entriesPass upd) then None
  else
    match castUpdateAge upd with
    | None => None
    | Some (Err e) => Some (Err e, c)
    | Some (Ok age') =>
        match validateUpdate upd age' with
        | _ :: _ as errs => Some (Err (ValidationError errs), c)
        | [] =>
            match find (hasId id) c with
            | None => Some (Ok None, c)
            | Some _ =>
                if match u_email upd with
                   | Some v => emailTaken id (emailSetter v) c
                   | None => false
                   end
                then Some (Err DuplicateKey, c)
                else
                  let c' := replace id (applyUpdate upd age') c in
                  Some (Ok (find (hasId id) c'), c')
            end
        end
    end.

(** ** The statistics pipeline *)

Definition countIf (p : Doc -> bool) (c : Collection) : option Z :=
  match filter p c with
  | [] => None
  | l => Some (Z.of_nat (List.length l))
  end.

Definition scoreGroup (c : Collection) : option ScoreGroup :=
  match map (fun d => profileScore (fields d)) c with
  | [] => None
  | s :: l => Some (mkScoreGroup (fold_right Z.min s l) (fold_right Z.max s l))
  end.

Definition aggregate (c : Collection) : Facets :=
  mkFacets (countIf (fun _ => true) c)
           (countIf (fun d => isActive (fields d)) c)
           (scoreGroup c).

(** ** The answers *)

Definition answer : Answers Collection :=
  fun X call =>
    match call in DbCall X return Collection -> option (X * Collection) with
    | FindOne q => fun c =>
        if castFails q then Some (Err CastError, c)
        else
          match select q c with
          | Some l => Some (Ok (hd_error l), c)
          | None => None
          end
    | Create _ => fun _ => None
    | Save _ => fun _ => None
    | FindByIdAndUpdate id upd => fun c => findByIdAndUpdate id upd c
    | Find q o => fun c =>
        if negb (modelled o) then None
        else if castFails q then Some (Err CastError, c)
        else
          match select q c with
          | Some l =>
              match applySort (sort o) l with
              | Some sorted =>
                  Some (Ok (applyLimit (limit o) (applySkip (skip o) sorted)), c)
              | None => None
              end
          | None => None
          end
    | CountDocuments q => fun c =>
        if castFails q then Some (Err CastError, c)
        else
          match select q c with
          | Some l => Some (Ok (Z.of_nat (List.length l)), c)
          | None => None
          end
    | Aggregate => fun c => Some (Ok (aggregate c), c)
    end.

(** Running a handler against a collection. *)
Definition run {R : Type} (p : Prog R) (c : Collection) : option (R * Collection) :=
  interp answer p c.

End Store.

(* ===================================================================== *)
(** * controllers/userController.js *)
(* ===================================================================== *)

Module UserController.

Import JS Model Mongo.
Local Open Scope prog_scope.
Local Open Scope string_scope.

(** ** Requests *)

(** [req.query] of GET /api/users: each parameter is a string or absent. *)
Record ListParams : Type := mkListParams {
  page : option string;
  limit : option string;
  sortBy : option string;
  order : option string;
  l_name : option string;
  l_email : option string;
  minAge : option string;
  maxAge : option string;
  hobby : option string;
  l_isActive : option string
}.

(** [req.query] of GET /api/users/search *)
Record SearchParams : Type := mkSearchParams {
  q : option string;
  field : option string
}.

(** [req.body] of POST /api/users *)
Record CreateBody : Type := mkCreateBody {
  b_name : option string;
  b_email : option string;
  b_age : option Json;
  b_hobbies : option (list string)
}.

(** ** Responses *)

Record Pagination : Type := mkPagination {
  currentPage : Num;
  pageSize : Num;
  totalUsers : Z;
  totalPages : Num;
  hasNextPage : bool;
  hasPreviousPage : bool
}.

Record StatsData : Type := mkStatsData {
  users : Z;
  active : Z;
  inactive : Z;
  profileMinScore : Z;
  profileMaxScore : Z
}.

(** What a response carries besides [success], [message] and [timestamp].
    [InternalError] is the [error] key of a 500, whose text depends on the
    environment; the averages, the age statistics and the hobby ranking of
    the statistics are left out. *)
Inductive Payload : Type :=
| NoPayload
| UserList (data : list Doc) (pagination : Pagination) (applied : bool) (details : Query)
| SearchResult (data : list Doc) (query fld : string) (results : Z)
| OneDoc (data : Doc)
| OneUser (data : User)
| Stats (data : StatsData)
| FieldErrors (errors : list (Path * string))
| MissingFields (missingName missingEmail : bool)
| ConflictField (conflictField : string)
| ValidFields (validFields : list string)
| DuplicateError (error : string)
| InternalError.

Record Response : Type := mkResponse {
  status : Z;
  success : bool;
  message : string;
  payload : Payload
}.

(** ** Helpers *)

Definition orDefault (v : option string) (d : string) : string :=
  match v with Some s => s | None => d end.

Definition isHex (c : ascii) : bool :=
  isDigit c || between 97 102 c || between 65 70 c.

(** /^[0-9a-fA-F]{24}$/ *)
Definition isObjectId (id : string) : bool :=
  forallb isHex (chars id) && Z.eqb (length id) 24.

(** The truthiness of a body value, and [parseInt] of it. *)
Definition truthyJson (v : option Json) : bool :=
  match v with
  | Some (JNum (Int z)) => negb (Z.eqb z 0)
  | Some (JNum (NaN | NegZero)) => false
  | Some (JNum (PosInf | NegInf)) => true
  | Some (JStr s) => negb (String.eqb s EmptyString)
  | Some JNull | None => false
  end.

(** [parseInt] turns its argument into a string first: a number of a body
    is an integer below 10^21 in magnitude, which is written in plain
    digits; an infinity is written as a word. *)
Definition parseIntJson (v : Json) : Num :=
  match v with
  | JNum (Int z) => Int z
  | JNum NegZero => Int 0
  | JNum (NaN | PosInf | NegInf) => NaN
  | JStr s => parseInt s
  | JNull => NaN
  end.

Definition decimal (n : nat) : string :=
  NilEmpty.string_of_uint (Nat.to_uint n).

Definition quote : string := String (ascii_of_nat 34) EmptyString.

(** ** GET /api/users *)

Record ListPlan : Type := mkListPlan {
  query : Query;
  pageNumber : Num;
  pageSizeOf : Num;
  skipOf : Num;
  sortOptions : string * Z
}.

(** The part of [getAllUsers] before the store is called. *)
Definition listPlan (p : ListParams) : ListPlan :=
  let page := orDefault (page p) "1" in
  let limit := orDefault (limit p) "10" in
  let sortBy := orDefault (sortBy p) "createdAt" in
  let order := orDefault (order p) "desc" in
  let query :=
    ((if truthyStr (l_name p)
     then [On FName (Regex (orDefault (l_name p) EmptyString))] else [])
    ++ (if truthyStr (l_email p)
        then [On FEmail (Regex ("^" ++ orDefault (l_email p) EmptyString ++ "$"))]
        else [])
    ++ (if truthyStr (minAge p) || truthyStr (maxAge p)
        then [On FAge
                (Range
                   (if truthyStr (minAge p)
                    then option_map parseInt (minAge p) else None)
                   (if truthyStr (maxAge p)
                    then option_map parseInt (maxAge p) else None))]
        else [])
    ++ (if truthyStr (hobby p)
        then [On FHobbies (EqStr (orDefault (hobby p) EmptyString))] else [])
    ++ (match l_isActive p with
        | Some v => [On FIsActive (EqBool (String.eqb v "true"))]
        | None => []
        end))%list in
  let pageNumber := parseInt page in
  let pageSize := parseInt limit in
  let skip := mul (pred pageNumber) pageSize in
  let sortOrder := if String.eqb order "desc" then -1 else 1 in
  mkListPlan query pageNumber pageSize skip (sortBy, sortOrder).

(** The pagination metadata, once the store has answered. *)
Definition paginate (pl : ListPlan) (totalUsers : Z) : Pagination :=
  let totalPages := ceilDiv totalUsers (pageSizeOf pl) in
  let hasNextPage := lt (pageNumber pl) totalPages in
  let hasPreviousPage := gt (pageNumber pl) (Int 1) in
  mkPagination (pageNumber pl) (pageSizeOf pl) totalUsers totalPages
               hasNextPage hasPreviousPage.

Definition listFailed : Response :=
  mkResponse 500 false "Failed to retrieve users" InternalError.

Definition getAllUsers (p : ListParams) : Prog Response :=
  let pl := listPlan p in
  found <- await (Find (query pl)
                       (mkOptions (Some (sortOptions pl))
                                  (Some (skipOf pl)) (Some (pageSizeOf pl)))) ;;
  counted <- await (CountDocuments (query pl)) ;;
  match found, counted with
  | Ok users, Ok totalUsers =>
      Ret (mkResponse 200 true "Users retrieved successfully"
             (UserList users (paginate pl totalUsers)
                       (negb (Nat.eqb (List.length (query pl)) 0)) (query pl)))
  | _, _ => Ret listFailed
  end.

(** ** POST /api/users *)

Definition createFailed : Response :=
  mkResponse 500 false "Failed to create user" InternalError.

Definition createUser (b : CreateBody) : Prog Response :=
  if negb (truthyStr (b_name b)) || negb (truthyStr (b_email b)) then
    Ret (mkResponse 400 false "Name and email are required fields"
           (MissingFields (negb (truthyStr (b_name b)))
                          (negb (truthyStr (b_email b)))))
  else
    let name := orDefault (b_name b) EmptyString in
    let email := orDefault (b_email b) EmptyString in
    existingUser <- await (FindOne [On FEmail (EqStr (toLowerCase email))]) ;;
    match existingUser with
    | Err _ => Ret createFailed
    | Ok (Some _) =>
        Ret (mkResponse 409 false "User with this email already exists"
               (ConflictField "email"))
    | Ok None =>
        let userData :=
          mkUserData (trim name) (trim (toLowerCase email))
                     (if truthyJson (b_age b)
                      then option_map parseIntJson (b_age b) else None)
                     (match b_hobbies b with
                      | Some hs => map trim hs
                      | None => []
                      end) in
        saved <- await (Create userData) ;;
        match saved with
        | Err (ValidationError errors) =>
            Ret (mkResponse 400 false "Validation failed" (FieldErrors errors))
        | Err DuplicateKey =>
            Ret (mkResponse 409 false "Duplicate key error"
                   (DuplicateError "Email already exists"))
        | Err _ => Ret createFailed
        | Ok savedUser =>
            Ret (mkResponse 201 true "User created successfully" (OneUser savedUser))
        end
    end.

(** ** PUT /api/users/:id *)

(** The [catch] of [updateUser]. *)
Definition updateCaught (e : Error) : Response :=
  match e with
  | ValidationError errors =>
      mkResponse 400 false "Validation failed during update" (FieldErrors errors)
  | DuplicateKey =>
      mkResponse 409 false "Duplicate key error" (DuplicateError "Email already exists")
  | _ => mkResponse 500 false "Failed to update user" InternalError
  end.

(** The clean-up of [updateData] after the e-mail has been dealt with. *)
Definition cleanUpdate (updateData : UpdateData) : UpdateData :=
  mkBody
    (if truthyStr (u_name updateData)
     then option_map trim (u_name updateData) else u_name updateData)
    (u_email updateData)
    (if truthyJson (u_age updateData)
     then option_map (fun v => JNum (parseIntJson v)) (u_age updateData)
     else u_age updateData)
    (option_map (map trim) (u_hobbies updateData))
    (u_isActive updateData)
    (u_profileScore updateData)
    (u_hobbiesOther updateData)
    (u_rest updateData).

Definition findAndUpdate (id : string) (updateData : UpdateData) : Prog Response :=
  updatedUser <- await (FindByIdAndUpdate id (cleanUpdate updateData)) ;;
  match updatedUser with
  | Err e => Ret (updateCaught e)
  | Ok None => Ret (mkResponse 404 false "User not found" NoPayload)
  | Ok (Some d) => Ret (mkResponse 200 true "User updated successfully" (OneDoc d))
  end.

Definition updateUser (id : string) (body : UpdateData) : Prog Response :=
  if negb (isObjectId id) then
    Ret (mkResponse 400 false "Invalid user ID format" NoPayload)
  else
    let updateData := body in
    if truthyStr (u_email updateData) then
      let email := trim (toLowerCase (orDefault (u_email updateData) EmptyString)) in
      let updateData :=
        mkBody (u_name updateData) (Some email) (u_age updateData)
               (u_hobbies updateData) (u_isActive updateData)
               (u_profileScore updateData) (u_hobbiesOther updateData)
               (u_rest updateData) in
      existingUserWithEmail <-
        await (FindOne [On FEmail (EqStr email); On FId (NeStr id)]) ;;
      match existingUserWithEmail with
      | Err e => Ret (updateCaught e)
      | Ok (Some _) =>
          Ret (mkResponse 409 false "Email already exists for another user" NoPayload)
      | Ok None => findAndUpdate id updateData
      end
    else findAndUpdate id updateData.

(** ** GET /api/users/search *)

Definition searchFailed : Response :=
  mkResponse 500 false "Search failed" InternalError.

(** The [switch] on [field]: the filter, or nothing for another value. *)
Definition searchQuery (q field : string) : option Query :=
  let searchRegex := Regex q in
  if String.eqb field "name" then Some [On FName searchRegex]
  else if String.eqb field "email" then Some [On FEmail searchRegex]
  else if String.eqb field "hobby" then Some [On FHobbies searchRegex]
  else if String.eqb field "all" then
    Some [Or [(FName, searchRegex); (FEmail, searchRegex); (FHobbies, searchRegex)]]
  else None.

Definition searchUsers (p : SearchParams) : Prog Response :=
  let field := orDefault (field p) "all" in
  if negb (truthyStr (q p)) then
    Ret (mkResponse 400 false "Search query (q) is required" NoPayload)
  else
    let q := orDefault (q p) EmptyString in
    match searchQuery q field with
    | None =>
        Ret (mkResponse 400 false "Invalid search field"
               (ValidFields ["name"; "email"; "hobby"; "all"]))
    | Some query =>
        found <- await (Find query (mkOptions None None (Some (Int 50)))) ;;
        match found with
        | Err _ => Ret searchFailed
        | Ok users =>
            Ret (mkResponse 200 true
                   ("Found " ++ decimal (List.length users) ++ " user(s) matching "
                    ++ quote ++ q ++ quote ++ " in " ++ field)
                   (SearchResult users q field (Z.of_nat (List.length users))))
        end
    end.

(** ** GET /api/users/stats *)

Definition statsFailed : Response :=
  mkResponse 500 false "Failed to retrieve statistics" InternalError.

(** [x?.count || 0] and the like: a missing facet counts for zero. *)
Definition orZero (v : option Z) : Z :=
  match v with Some z => z | None => 0 end.

Definition formatStats (stats : Facets) : StatsData :=
  mkStatsData
    (orZero (totalCount stats))
    (orZero (activeCount stats))
    (orZero (totalCount stats) - orZero (activeCount stats))
    (orZero (option_map minScore (profileScores stats)))
    (orZero (option_map maxScore (profileScores stats))).

Definition getUserStats : Prog Response :=
  stats <- await Aggregate ;;
  match stats with
  | Err _ => Ret statsFailed
  | Ok stats =>
      Ret (mkResponse 200 true "User statistics retrieved successfully"
             (Stats (formatStats stats)))
  end.

End UserController.

(* ===================================================================== *)
(** * The specification's side *)
(* ===================================================================== *)

(** Definitions that follow the words of the specification rather than the
    code, to be compared with the code below. *)

Module Spec.

Import JS Model Mongo.

(** The profile score of the Scoring Engine: 20 for a name that is present
    with at least 2 characters, 30 for an e-mail that is present, 20 for an
    age that is present (not null), 3 per hobby up to 30. A text field is
    present in the sense of the schema's [required]. *)
Definition computeScore (u : User) : Z :=
  (match name u with
   | Some n => if required (name u) && (2 <=? length n) then 20 else 0
   | None => 0
   end)
  + (if required (email u) then 30 else 0)
  + (match age u with Some _ => 20 | None => 0 end)
  + Z.min (3 * Z.of_nat (List.length (hobbies u))) 30.

(** [q] occurs in [s], letter case put aside. *)
Definition containsIgnoringCase (q s : string) : Prop :=
  exists before after : list ascii,
    map lowerChar (chars s) = before ++ map lowerChar (chars q) ++ after.

(** A search text without any character that a regular expression gives a
    meaning of its own. *)
Definition plain (q : string) : bool :=
  forallb (fun c => negb (Store.metachar c)) (chars q).


(** Every stored e-mail is in lower case, as every write path stores it. *)
Definition lowercased (c : list Doc) : Prop :=
  forall d e, In d c -> email (fields d) = Some e -> toLowerCase e = e.

End Spec.

(* ===================================================================== *)
(** * Sample data *)
(* ===================================================================== *)

Module Sample.

Import JS Model Mongo UserController.
Local Open Scope string_scope.

Definition ann : User :=
  mkUser (Some "Ann Lee") (Some "ann@example.com") (Some 25)
         ["chess"; "reading"] true 76.

Definition annId : string := "64b7f0c2a1d3e4f5a6b7c8d9".

Definition annDoc : Doc := mkDoc annId ann.

(** Two hobbies listed twice, as a bulk replacement can leave them. *)
Definition twice : User :=
  mkUser (Some "Ann Lee") (Some "ann@example.com") (Some 25)
         ["chess"; "reading"; "chess"] true 79.

(** A record whose age is zero: the schema rejects it, the scoring reads
    it all the same. *)
Definition newborn : User :=
  mkUser (Some "Ann Lee") (Some "ann@example.com") (Some 0)
         ["chess"; "reading"] true 0.

Definition withPaging (page limit : string) : ListParams :=
  mkListParams (Some page) (Some limit) None None None None None None None None.

End Sample.

(* ===================================================================== *)
(** * models/User.js: the age group virtual *)
(* ===================================================================== *)

Module Virtuals.

Import JS Model Mongo.
Local Open Scope string_scope.

(** [userSchema.virtual('ageGroup')] *)
Definition ageGroup (this : User) : string :=
  if negb (truthyNum (age this)) then "Not specified"
  else match age this with
       | Some a =>
           if (a <? 18)%Z then "Minor"
           else if (a <? 30)%Z then "Young Adult"
           else if (a <? 50)%Z then "Adult"
           else "Senior"
       | None => "Not specified"
       end.

End Virtuals.

(* ===================================================================== *)
(** * controllers/userController.js: the age groups of the statistics *)
(* ===================================================================== *)

Module Pipeline.

(** The [boundaries] of the [$bucket] stage of [getUserStats]. *)
Definition boundaries : list Z := [0; 18; 30; 50; 100].

(** [$bucket]: a value goes to the bucket named after the boundary it is at
    or above, below the next boundary; [None] is the [default] bucket,
    'Other'. *)
Fixpoint bucket (bs : list Z) (v : Z) : option Z :=
  match bs with
  | lo :: ((hi :: _) as rest) =>
      if (lo <=? v) && (v <? hi) then Some lo else bucket rest v
  | _ => None
  end.

(** The bucket of the [ageGroups] facet a document with this age is
    counted in. *)
Definition ageBucket (a : Z) : option Z := bucket boundaries a.

End Pipeline.

(* ===================================================================== *)
(** * controllers/userController.js: GET /api/users/:id *)
(* ===================================================================== *)

Module Lookup.

Import JS Model Mongo UserController.
Local Open Scope prog_scope.
Local Open Scope string_scope.

(** [getUserById]; [User.findById(id)] is the [findOne] on [_id]. *)
Definition getUserById (id : string) : Prog Response :=
  if negb (isObjectId id) then
    Ret (mkResponse 400 false "Invalid user ID format" NoPayload)
  else
    user <- await (FindOne [On FId (EqStr id)]) ;;
    match user with
    | Err _ => Ret (mkResponse 500 false "Failed to retrieve user" InternalError)
    | Ok None => Ret (mkResponse 404 false "User not found" NoPayload)
    | Ok (Some d) =>
        Ret (mkResponse 200 true "User retrieved successfully" (OneDoc d))
    end.

End Lookup.

(* ===================================================================== *)
(** * middleware/errorHandler.js *)
(* ===================================================================== *)

Module ErrorHandler.

Import JS.
Local Open Scope string_scope.

(** The properties of an error object that the handler reads; each may be
    missing. [errors] maps a path to the message of its validator error,
    [keyPattern] lists the keys of the index that was violated. *)
Record Err : Type := mkErr {
  e_statusCode : option Z;
  e_message : option string;
  e_name : option string;
  e_kind : option string;
  e_code : option Z;
  e_errors : option (list (string * string));
  e_keyPattern : option (list string);
  e_stack : option string
}.

Record Req : Type := mkReq {
  originalUrl : string;
  path : string;
  method : string
}.

(** The body sent; [stack] is [None] when the key is not set, and holds
    [err.stack] (itself possibly undefined) when it is. *)
Record ErrorResponse : Type := mkErrorResponse {
  statusCode : Z;
  success : bool;
  message : string;
  r_path : string;
  r_method : string;
  errors : option (list (string * string));
  stack : option (option string)
}.

(** [notFound]: the error handed to [next]; [trace] is the stack that the
    runtime attaches to a new [Error]. *)
Definition notFound (req : Req) (trace : string) : Err :=
  mkErr (Some 404) (Some ("Not Found - " ++ originalUrl req)) (Some "Error")
        None None None None (Some trace).

Definition nameIs (err : Err) (n : string) : bool :=
  match e_name err with
  | Some m => String.eqb m n
  | None => false
  end.

Definition codeIs (err : Err) (z : Z) : bool :=
  match e_code err with
  | Some c => Z.eqb c z
  | None => false
  end.

Definition truthyZ (v : option Z) : bool :=
  match v with
  | Some z => negb (Z.eqb z 0)
  | None => false
  end.

(** The state of the three locals [statusCode], [message] and [errors]. *)
Record Locals : Type := mkLocals {
  l_statusCode : Z;
  l_message : string;
  l_errors : option (list (string * string))
}.

(** [errorHandler]; [development] is [process.env.NODE_ENV ===
    'development']. [None]: the handler throws, on [Object.keys] of an
    undefined value. *)
Definition errorHandler (development : bool) (err : Err) (req : Req)
  : option ErrorResponse :=
  let l :=
    mkLocals (if truthyZ (e_statusCode err)
              then match e_statusCode err with Some z => z | None => 500%Z end
              else 500%Z)
             (if truthyStr (e_message err)
              then match e_message err with
                   | Some m => m
                   | None => "Internal Server Error"
                   end
              else "Internal Server Error")
             None in
  let validated :=
    if nameIs err "ValidationError" then
      match e_errors err with
      | Some es => Some (mkLocals 400 "Validation failed" (Some es))
      | None => None
      end
    else Some l in
  match validated with
  | None => None
  | Some l =>
      let l :=
        if nameIs err "CastError"
           && match e_kind err with
              | Some k => String.eqb k "ObjectId"
              | None => false
              end
        then mkLocals 400 "Invalid ID format" (l_errors l)
        else l in
      let duplicate :=
        if codeIs err 11000 then
          match e_keyPattern err with
          | Some keys =>
              let field := match keys with k :: _ => k | [] => "undefined" end in
              Some (mkLocals 409 "Duplicate key error"
                             (Some [(field, "This " ++ field ++ " already exists")]))
          | None => None
          end
        else Some l in
      match duplicate with
      | None => None
      | Some l =>
          let l :=
            if nameIs err "JsonWebTokenError"
            then mkLocals 401 "Invalid token" (l_errors l) else l in
          let l :=
            if nameIs err "TokenExpiredError"
            then mkLocals 401 "Token expired" (l_errors l) else l in
          Some (mkErrorResponse (l_statusCode l) false (l_message l)
                                (path req) (method req) (l_errors l)
                                (if development then Some (e_stack err) else None))
      end
  end.

End ErrorHandler.

(* ===================================================================== *)
(** * config/database.js *)
(* ===================================================================== *)

Module Database.

Import JS.

(** The fields of the connection manager that [connect] reads or writes. *)
Record DatabaseConnection : Type := mkDatabase {
  isConnected : bool;
  maxRetries : Z;
  retryCount : Z
}.

(** [new DatabaseConnection()] *)
Definition fresh : DatabaseConnection := mkDatabase false 3 0.

(** How [connect] ends: it returns the connection, or the process exits
    with code 1. *)
Inductive Ending : Type :=
| Returned (db : DatabaseConnection)
| Exited (db : DatabaseConnection).

Definition isQuote (c : ascii) : bool := (code c =? 39) || (code c =? 34).

(** The [replace] of the address: every single or double quote mark goes. *)
Definition cleanUri (uri : string) : string :=
  str (filter (fun c => negb (isQuote c)) (chars uri)).

(** [connect]. [uri] is [process.env.MONGODB_URI]; [outcomes] tells, for
    each call of [mongoose.connect] to come, whether it resolves. The result
    carries the ending, the addresses dialled in order, and the outcomes not
    used. [None]: [fuel] or the outcomes ran out. Each level of [fuel] is one
    run of the body; the waits between runs, the console and the listeners
    set up after a success do not appear. *)
Fixpoint connect (fuel : nat) (uri : option string) (outcomes : list bool)
         (db : DatabaseConnection)
  : option (Ending * list string * list bool) :=
  match fuel with
  | O => None
  | S fuel' =>
      let attempt :=
        match uri with
        | Some u =>
            if truthyStr uri then
              match outcomes with
              | o :: rest => Some (o, [cleanUri u], rest)
              | [] => None
              end
            else Some (false, [], outcomes)
        | None => Some (false, [], outcomes)
        end in
      match attempt with
      | None => None
      | Some (true, dialled, rest) =>
          Some (Returned (mkDatabase true (maxRetries db) 0), dialled, rest)
      | Some (false, dialled, rest) =>
          let db := mkDatabase (isConnected db) (maxRetries db) (retryCount db + 1) in
          if retryCount db <? maxRetries db then
            match connect fuel' uri rest db with
            | Some (e, dialled', rest') => Some (e, dialled ++ dialled', rest')
            | None => None
            end
          else Some (Exited db, dialled, rest)
      end
  end.

End Database.

(* ===================================================================== *)
(** * What a handler may ask of the store *)
(* ===================================================================== *)

Module Calls.

Import JS Model Mongo.

(** Every call that the program can come to issue, whatever the store
    answers, satisfies [Q]. *)
Fixpoint always {R : Type} (Q : forall X : Type, DbCall X -> Prop)
         (p : Prog R) : Prop :=
  match p with
  | Ret _ => True
  | Call c k => Q _ c /\ forall x, always Q (k x)
  end.

(** A call that reads and cannot change the collection. *)
Definition reads (X : Type) (c : DbCall X) : Prop :=
  match c with
  | FindOne _ | Find _ _ | CountDocuments _ | Aggregate => True
  | _ => False
  end.

(** A string with no white space at either end. *)
Definition trimmed (s : string) : Prop := trim s = s.

(** The calls of a creation: a look-up, or the creation of a user whose
    name, e-mail and hobbies are trimmed and whose e-mail is in lower
    case. *)
Definition creation (X : Type) (c : DbCall X) : Prop :=
  match c with
  | FindOne _ => True
  | Create d =>
      trimmed (d_name d) /\ trimmed (d_email d)
      /\ toLowerCase (d_email d) = d_email d
      /\ Forall trimmed (d_hobbies d)
  | _ => False
  end.

(** The calls of an update of the document [id] with the body [body]: a
    look-up, or an update of that document in which the name is trimmed,
    the e-mail is trimmed and in lower case, the hobbies that came as an
    array are trimmed, and everything else that the body holds (a [hobbies]
    that is not an array, the keys that the schema does not know, the
    active flag, the score) is as it came. *)
Definition updating (id : string) (body : UpdateData) (X : Type) (c : DbCall X) : Prop :=
  match c with
  | FindOne _ => True
  | FindByIdAndUpdate id' upd =>
      id' = id
      /\ (forall e, u_email upd = Some e -> trimmed e /\ toLowerCase e = e)
      /\ (forall n, u_name upd = Some n -> trimmed n)
      /\ (forall hs, u_hobbies upd = Some hs -> Forall trimmed hs)
      /\ u_hobbiesOther upd = u_hobbiesOther body
      /\ u_rest upd = u_rest body
      /\ u_isActive upd = u_isActive body
      /\ u_profileScore upd = u_profileScore body
  | _ => False
  end.

(** A store that never answers a [find] with more documents than the
    limit it is asked for. *)
Definition honoursLimit {S : Type} (h : Answers S) : Prop :=
  forall (q : Query) (o : FindOptions) (n : Z) (s s' : S) (l : list Doc),
    limit o = Some (Int n) -> 0 < n ->
    h _ (Find q o) s = Some (Ok l, s') ->
    Z.of_nat (List.length l) <= n.

End Calls.

(* ===================================================================== *)
(** * Further words and sample data *)
(* ===================================================================== *)

Module Words.

Import JS Model Mongo.
Local Open Scope string_scope.

(** The text occurs in the name, in the e-mail, in one of the hobbies of
    the document, letter case put aside. *)
Definition inName (s : string) (d : Doc) : Prop :=
  exists n : string, name (fields d) = Some n /\ Spec.containsIgnoringCase s n.

Definition inEmail (s : string) (d : Doc) : Prop :=
  exists e : string, email (fields d) = Some e /\ Spec.containsIgnoringCase s e.

Definition inHobbies (s : string) (d : Doc) : Prop :=
  exists h : string, In h (hobbies (fields d)) /\ Spec.containsIgnoringCase s h.

(** What a search in the field [f] looks for. *)
Definition mentions (f s : string) (d : Doc) : Prop :=
  (f = "name" /\ inName s d)
  \/ (f = "email" /\ inEmail s d)
  \/ (f = "hobby" /\ inHobbies s d)
  \/ (f = "all" /\ (inName s d \/ inEmail s d \/ inHobbies s d)).

(** The fields of the record pass the validators of their paths, the
    entries of [hobbies] put aside. *)
Definition sound (u : User) : Prop :=
  validateName (name u) = None
  /\ validateEmail (email u) = None
  /\ validateAge (age u) = None
  /\ validateHobbies (hobbies u) = None
  /\ validateProfileScore (profileScore u) = None.

(** The documents of a collection that are inactive, that are active. *)
Definition inactiveOnes (c : list Doc) : list Doc :=
  filter (fun d => negb (isActive (fields d))) c.

Definition activeOnes (c : list Doc) : list Doc :=
  filter (fun d => isActive (fields d)) c.

End Words.

Module MoreSample.

Import JS Model Mongo.
Local Open Scope string_scope.

Definition full : User :=
  mkUser (Some "Ann Lee") (Some "ann@example.com") (Some 25)
         ["chess"; "reading"; "golf"; "yoga"; "chess club"; "tennis"; "rowing";
          "skiing"; "poker"; "darts"] true 100.

Definition bob : User :=
  mkUser (Some "Bob Ray") (Some "bob@example.com") None ["Chess"] false 53.

Definition bobId : string := "64b7f0c2a1d3e4f5a6b7c8da".

Definition bobDoc : Doc := mkDoc bobId bob.


Definition missingRoute : ErrorHandler.Req :=
  ErrorHandler.mkReq "/api/nowhere?x=1" "/api/nowhere" "GET".

Definition duplicate : ErrorHandler.Err :=
  ErrorHandler.mkErr None (Some "E11000 duplicate key error") (Some "ValidationError")
                     None (Some 11000%Z) (Some [("name", "Name is required")])
                     (Some ["email"]) None.

End MoreSample.

(* ===================================================================== *)
(** * Properties of the model's methods *)
(* ===================================================================== *)

Module UserModelFacts.

Import JS Model Mongo UserModel.

Lemma includes_In (l : list string) (x : string) :
  includes l x = true <-> In x l.
Proof.
  unfold includes. rewrite existsb_exists. split.
  - intros [y [Hy Heq]]. apply String.eqb_eq in Heq. now subst.
  - intros H. exists x. split; [assumption | apply String.eqb_refl].
Qed.

Lemma indexOf_range (l : list string) (x : string) :
  indexOf l x = -1 \/ 0 <= indexOf l x.
Proof.
  induction l as [| y l IH]; simpl.
  - now left.
  - destruct (String.eqb y x).
    + right. lia.
    + destruct (indexOf l x <? 0) eqn:E.
      * now left.
      * right. apply Z.ltb_ge in E. lia.
Qed.

Lemma indexOf_absent (l : list string) (x : string) :
  ~ In x l -> indexOf l x = -1.
Proof.
  induction l as [| y l IH]; simpl; intros H.
  - reflexivity.
  - destruct (String.eqb y x) eqn:E.
    + apply String.eqb_eq in E. exfalso. apply H. now left.
    + rewrite IH by tauto. reflexivity.
Qed.

Lemma indexOf_first (l1 l2 : list string) (x : string) :
  ~ In x l1 -> indexOf (l1 ++ x :: l2) x = Z.of_nat (List.length l1).
Proof.
  induction l1 as [| y l1 IH]; intros H.
  - simpl. now rewrite String.eqb_refl.
  - change (indexOf ((y :: l1) ++ x :: l2) x)
      with (if String.eqb y x then 0
            else let i := indexOf (l1 ++ x :: l2) x in
                 if i <? 0 then -1 else i + 1).
    destruct (String.eqb y x) eqn:E.
    + apply String.eqb_eq in E. exfalso. apply H. now left.
    + cbv zeta. rewrite IH by (intro; apply H; now right).
      destruct (Z.of_nat (List.length l1) <? 0) eqn:E'.
      * apply Z.ltb_lt in E'. lia.
      * simpl List.length. lia.
Qed.

Lemma splice1_middle {A : Type} (l1 l2 : list A) (x : A) :
  splice1 (l1 ++ x :: l2) (Z.of_nat (List.length l1)) = l1 ++ l2.
Proof.
  unfold splice1. rewrite Nat2Z.id.
  rewrite firstn_app, firstn_all, Nat.sub_diag. simpl firstn.
  rewrite app_nil_r. f_equal.
  induction l1 as [| y l1 IH]; [reflexivity | exact IH].
Qed.

Lemma score_computeScore (this : User) :
  age this <> Some 0 -> score this = Spec.computeScore this.
Proof.
  intros Hage. unfold score, Spec.computeScore, required.
  assert (Ha : truthyNum (age this)
               = match age this with Some _ => true | None => false end).
  { destruct (age this) as [a |]; [| reflexivity]. simpl.
    destruct (a =? 0) eqn:E0; [| reflexivity].
    apply Z.eqb_eq in E0. subst a. now elim Hage. }
  rewrite Ha. clear Ha Hage.
  generalize (Z.of_nat (List.length (hobbies this))). intros k.
  cbv zeta.
  destruct (name this) as [n |]; destruct (email this) as [e |];
    destruct (age this) as [a |];
    repeat match goal with
           | |- context [truthyStr ?x] => destruct (truthyStr x)
           | |- context [2 <=? ?x] => destruct (2 <=? x)
           end;
    cbv beta iota delta [andb]; lia.
Qed.

(** C1, as stated, fails. A record with a valid name, a valid e-mail, two
    hobbies and the age 0 has an age that is present, yet
    [updateProfileScore] counts nothing for it: the score it assigns is
    20+30+6 = 56, where the sum of the claim is 76. *)
Lemma updateProfileScore_age_zero :
  validateName (name Sample.newborn) = None
  /\ validateEmail (email Sample.newborn) = None
  /\ age Sample.newborn = Some 0
  /\ List.length (hobbies Sample.newborn) = 2%nat
  /\ updateProfileScore Sample.newborn
     = await (Save (set_profileScore 56 Sample.newborn))
  /\ Spec.computeScore Sample.newborn = 76.
Proof.
  repeat split.
Qed.

(** C1, amended. For every record whose age is not 0, the score that
    [updateProfileScore] assigns is 20 for a name present with at least 2
    characters, plus 30 for an e-mail that is present, plus 20 for an age
    that is present (not null), plus 3 per hobby up to 30; such a record
    with a valid name, a valid e-mail, an age and exactly two hobbies gets
    20+30+20+6 = 76. *)
Theorem updateProfileScore_sum :
  forall this : User,
    age this <> Some 0 ->
    updateProfileScore this
    = await (Save (set_profileScore (Spec.computeScore this) this))
    /\ (forall (a : Z) (h1 h2 : string),
          validateName (name this) = None ->
          validateEmail (email this) = None ->
          age this = Some a ->
          hobbies this = [h1; h2] ->
          Spec.computeScore this = 76).
Proof.
  intros this Hage. split.
  - unfold updateProfileScore. now rewrite score_computeScore.
  - intros a h1 h2 Hn He Ha Hh.
    unfold Spec.computeScore. rewrite Ha, Hh.
    unfold validateName in Hn. unfold validateEmail in He.
    destruct (required (email this)); [| discriminate He].
    destruct (name this) as [n |]; [| discriminate Hn].
    destruct (required (Some n)); [| discriminate Hn].
    simpl in Hn.
    destruct (length n <? 2) eqn:E; [discriminate Hn |].
    apply Z.ltb_ge in E. apply Z.leb_le in E. rewrite E. reflexivity.
Qed.

Lemma updateProfileScore_sum_witness :
  age Sample.ann <> Some 0
  /\ updateProfileScore Sample.ann
     = await (Save (set_profileScore 76 Sample.ann))
  /\ Spec.computeScore Sample.ann = 76.
Proof.
  assert (H : age Sample.ann <> Some 0) by (intros E; discriminate E).
  split; [exact H |]. split.
  - exact (proj1 (updateProfileScore_sum Sample.ann H)).
  - apply (proj2 (updateProfileScore_sum Sample.ann H)
             25 "chess"%string "reading"%string); reflexivity.
Defined.

(** C8. Adding a hobby that the record already lists resolves with the
    record as it is, without saving: the hobbies sequence is unchanged. *)
Theorem addHobby_present :
  forall (this : User) (hobby : string),
    In hobby (hobbies this) ->
    addHobby this hobby = Ret (Ok this).
Proof.
  intros this hobby H. unfold addHobby.
  apply includes_In in H. now rewrite H.
Qed.

Lemma addHobby_present_witness :
  In "chess"%string (hobbies Sample.ann)
  /\ addHobby Sample.ann "chess" = Ret (Ok Sample.ann).
Proof.
  split; [now left |].
  apply addHobby_present. now left.
Defined.

(** C10. Removing a hobby that the record lists, once or several times,
    saves the record without the first occurrence and keeps the others;
    removing a hobby the record does not list resolves with the record as
    it is, without an error. *)
Theorem removeHobby_first_occurrence :
  forall (this : User) (hobby : string),
    (forall l1 l2 : list string,
        hobbies this = l1 ++ hobby :: l2 ->
        ~ In hobby l1 ->
        removeHobby this hobby = await (Save (set_hobbies (l1 ++ l2) this)))
    /\ (~ In hobby (hobbies this) -> removeHobby this hobby = Ret (Ok this)).
Proof.
  intros this hobby. split.
  - intros l1 l2 Hl Hn. unfold removeHobby. rewrite Hl.
    rewrite indexOf_first by assumption.
    rewrite splice1_middle.
    destruct (-1 <? Z.of_nat (List.length l1)) eqn:E; [reflexivity |].
    apply Z.ltb_ge in E. lia.
  - intros Hn. unfold removeHobby. now rewrite indexOf_absent.
Qed.

Lemma removeHobby_first_occurrence_witness :
  removeHobby Sample.twice "chess"
  = await (Save (set_hobbies ["reading"; "chess"]%string Sample.twice))
  /\ removeHobby Sample.ann "golf" = Ret (Ok Sample.ann).
Proof.
  split.
  - apply (proj1 (removeHobby_first_occurrence Sample.twice "chess")
             [] ["reading"; "chess"]%string).
    + reflexivity.
    + simpl. tauto.
  - apply (proj2 (removeHobby_first_occurrence Sample.ann "golf")).
    simpl. intros [H | [H | H]]; [discriminate H | discriminate H | exact H].
Defined.

End UserModelFacts.

(* ===================================================================== *)
(** * Properties of the handlers *)
(* ===================================================================== *)

Module UserControllerFacts.

Import JS Model Mongo Store UserController.
Local Open Scope string_scope.

(** ** Search: rejected requests *)

(** C5. A search request without [q] is answered 400 at once, and so is one
    whose [field] is none of name, email, hobby and all: the handler
    returns without having called the store. *)
Theorem searchUsers_rejects :
  forall p : SearchParams,
    (q p = None ->
     searchUsers p
     = Ret (mkResponse 400 false "Search query (q) is required" NoPayload))
    /\ (forall f : string,
          field p = Some f ->
          f <> "name" -> f <> "email" -> f <> "hobby" -> f <> "all" ->
          exists r : Response,
            searchUsers p = Ret r /\ status r = 400 /\ success r = false
            /\ (truthyStr (q p) = true -> message r = "Invalid search field")).
Proof.
  intros p. split.
  - intros Hq. unfold searchUsers. now rewrite Hq.
  - intros f Hf H1 H2 H3 H4. unfold searchUsers. rewrite Hf.
    destruct (truthyStr (q p)); simpl negb; cbv iota.
    + unfold searchQuery, orDefault.
      apply String.eqb_neq in H1, H2, H3, H4.
      rewrite H1, H2, H3, H4.
      eexists. repeat split.
    + eexists. repeat split. intros H. discriminate H.
Qed.

Lemma searchUsers_rejects_witness :
  searchUsers (mkSearchParams None (Some "hobby"))
  = Ret (mkResponse 400 false "Search query (q) is required" NoPayload)
  /\ exists r : Response,
       searchUsers (mkSearchParams (Some "chess") (Some "age")) = Ret r
       /\ status r = 400 /\ success r = false
       /\ (truthyStr (Some "chess") = true -> message r = "Invalid search field").
Proof.
  split.
  - apply (proj1 (searchUsers_rejects (mkSearchParams None (Some "hobby")))).
    reflexivity.
  - apply (proj2 (searchUsers_rejects (mkSearchParams (Some "chess") (Some "age")))
             "age"); [reflexivity | | | |]; intros H; discriminate H.
Defined.

(** ** List: pagination *)

Lemma ceilDiv_positive (n d : Z) :
  1 <= d ->
  exists t : Z, ceilDiv n (Int d) = Int t /\ (t - 1) * d < n <= t * d.
Proof.
  intros Hd. exists (- ((- n) / d)). split.
  - unfold ceilDiv. destruct d as [| d | d]; try lia.
    cbv zeta. replace (Z.pos d <? 0)%Z with false by reflexivity.
    now rewrite Bool.andb_false_r.
  - pose proof (Z.div_mod (- n) d ltac:(lia)) as Hdm.
    pose proof (Z.mod_pos_bound (- n) d ltac:(lia)) as Hb.
    nia.
Qed.

Lemma interp_getAllUsers {S : Type} (h : Answers S) (p : ListParams)
      (s s1 s2 : S) (users : list Doc) (total : Z) :
  h _ (Find (query (listPlan p))
            (mkOptions (Some (sortOptions (listPlan p)))
                       (Some (skipOf (listPlan p)))
                       (Some (pageSizeOf (listPlan p))))) s
  = Some (Ok users, s1) ->
  h _ (CountDocuments (query (listPlan p))) s1 = Some (Ok total, s2) ->
  interp h (getAllUsers p) s
  = Some (mkResponse 200 true "Users retrieved successfully"
            (UserList users (paginate (listPlan p) total)
                      (negb (Nat.eqb (List.length (query (listPlan p))) 0))
                      (query (listPlan p))), s2).
Proof.
  intros Hf Hc. unfold getAllUsers, await. cbv zeta.
  cbn [bind interp]. rewrite Hf. cbn [bind interp]. rewrite Hc. reflexivity.
Qed.

(** C4. For a page and a limit that are numbers at least 1, and a total
    that is a count of documents (a non-negative integer below 2^53), the
    metadata of the answer to a list request carry the ceiling of the total
    over the page size as [totalPages], say that there is a next page
    exactly when the current page is below [totalPages], and that there is
    a previous page exactly when the current page is above 1. The page and
    the page size are the doubles that [parseInt] returns; a limit written
    with so many digits that it is read as infinity gives a page size of
    infinity, over which the ceiling is 0. *)
Theorem getAllUsers_pagination :
  forall (p : ListParams) (pg total : Z),
    parseInt (orDefault (page p) "1") = Int pg -> 1 <= pg ->
    0 <= total < 9007199254740992 ->
    let m := paginate (listPlan p) total in
    (currentPage m = Int pg /\ totalUsers m = total)
    /\ (hasPreviousPage m = true <-> 1 < pg)
    /\ (forall lm : Z,
          parseInt (orDefault (limit p) "10") = Int lm -> 1 <= lm ->
          pageSize m = Int lm
          /\ exists tp : Z,
               totalPages m = Int tp
               /\ (tp - 1) * lm < total <= tp * lm
               /\ (hasNextPage m = true <-> pg < tp))
    /\ (parseInt (orDefault (limit p) "10") = PosInf ->
        pageSize m = PosInf /\ totalPages m = Int 0 /\ hasNextPage m = false)
    /\ (forall (S : Type) (h : Answers S) (s s1 s2 : S) (users : list Doc),
          h _ (Find (query (listPlan p))
                    (mkOptions (Some (sortOptions (listPlan p)))
                               (Some (skipOf (listPlan p)))
                               (Some (pageSizeOf (listPlan p))))) s
          = Some (Ok users, s1) ->
          h _ (CountDocuments (query (listPlan p))) s1 = Some (Ok total, s2) ->
          exists r : Response,
            interp h (getAllUsers p) s = Some (r, s2)
            /\ status r = 200
            /\ payload r
               = UserList users m
                   (negb (Nat.eqb (List.length (query (listPlan p))) 0))
                   (query (listPlan p))).
Proof.
  intros p pg total Hpg Hpg1 Htotal m.
  assert (Hn : pageNumber (listPlan p) = Int pg) by exact Hpg.
  refine (conj _ (conj _ (conj _ (conj _ _)))).
  - subst m. unfold paginate. cbn [currentPage totalUsers].
    now rewrite Hn.
  - subst m. unfold paginate. cbn [hasPreviousPage].
    rewrite Hn. unfold gt, lt. cbn [finite]. apply Z.ltb_lt.
  - intros lm Hlm Hlm1.
    assert (Hs : pageSizeOf (listPlan p) = Int lm) by exact Hlm.
    destruct (ceilDiv_positive total lm Hlm1) as [tp [Htp Hb]].
    subst m. unfold paginate. cbn [pageSize totalPages hasNextPage].
    rewrite Hn, Hs, Htp. split; [reflexivity |].
    exists tp. split; [reflexivity |]. split; [exact Hb |].
    unfold lt. cbn [finite]. apply Z.ltb_lt.
  - intros Hlm.
    assert (Hs : pageSizeOf (listPlan p) = PosInf) by exact Hlm.
    subst m. unfold paginate. cbn [pageSize totalPages hasNextPage].
    rewrite Hn, Hs. cbn [ceilDiv]. split; [reflexivity |].
    split; [reflexivity |]. unfold lt. cbn [finite]. apply Z.ltb_ge. lia.
  - intros S h s s1 s2 users Hf Hc.
    eexists. split; [apply (interp_getAllUsers h p s s1 s2 users total Hf Hc) |].
    split; reflexivity.
Qed.

Lemma getAllUsers_pagination_witness :
  (let m := paginate (listPlan (Sample.withPaging "2" "10")) 25 in
   exists tp : Z,
     totalPages m = Int tp /\ (tp - 1) * 10 < 25 <= tp * 10
     /\ (hasNextPage m = true <-> 2 < tp)
     /\ (hasPreviousPage m = true <-> 1 < 2))
  /\ exists r : Response,
       run (getAllUsers (Sample.withPaging "1" "10")) [Sample.annDoc]
       = Some (r, [Sample.annDoc])
       /\ status r = 200
       /\ payload r
          = UserList [Sample.annDoc]
              (paginate (listPlan (Sample.withPaging "1" "10")) 1) false [].
Proof.
  split.
  - pose proof (getAllUsers_pagination (Sample.withPaging "2" "10") 2 25
                  eq_refl ltac:(lia) ltac:(lia)) as H.
    cbv zeta in H. destruct H as [_ [H4 [H _]]].
    destruct (H 10 eq_refl ltac:(lia)) as [_ [tp [H1 [H2 H3]]]].
    cbv zeta. exists tp.
    split; [exact H1 | split; [exact H2 | split; [exact H3 | exact H4]]].
  - pose proof (getAllUsers_pagination (Sample.withPaging "1" "10") 1 1
                  eq_refl ltac:(lia) ltac:(lia)) as H.
    cbv zeta in H. destruct H as [_ [_ [_ [_ H]]]].
    exact (H Collection answer [Sample.annDoc] [Sample.annDoc] [Sample.annDoc]
             [Sample.annDoc] eq_refl eq_refl).
Defined.

(** ** List: values that are not numbers *)








(** ** The stored e-mails stay in lower case *)

Lemma lowerChar_not_upper (c : ascii) : isUpper (lowerChar c) = false.
Proof.
  destruct c as [[] [] [] [] [] [] [] []]; reflexivity.
Qed.

Lemma map_lowerChar_fixed (l : list ascii) :
  forallb (fun c => negb (isUpper c)) l = true -> map lowerChar l = l.
Proof.
  induction l as [| c l IH]; [reflexivity |].
  cbn [forallb map]. intros H. apply Bool.andb_true_iff in H.
  destruct H as [Hc Hl]. rewrite (IH Hl). f_equal.
  unfold lowerChar. apply Bool.negb_true_iff in Hc. now rewrite Hc.
Qed.

Lemma forallb_dropWhile {A : Type} (p f : A -> bool) (l : list A) :
  forallb f l = true -> forallb f (dropWhile p l) = true.
Proof.
  induction l as [| x l IH]; [reflexivity |].
  intros H. cbn [dropWhile]. destruct (p x); [| exact H].
  cbn [forallb] in H. apply Bool.andb_true_iff in H. now apply IH.
Qed.

Lemma forallb_rev {A : Type} (f : A -> bool) (l : list A) :
  forallb f l = true -> forallb f (rev l) = true.
Proof.
  rewrite !forallb_forall. intros H x Hx. apply H. now apply in_rev.
Qed.

Lemma chars_str (l : list ascii) : chars (str l) = l.
Proof. apply list_ascii_of_string_of_list_ascii. Qed.

Lemma emailSetter_lowercase (v : string) :
  toLowerCase (emailSetter v) = emailSetter v.
Proof.
  unfold emailSetter, trim, toLowerCase at 1. rewrite chars_str.
  f_equal. apply map_lowerChar_fixed.
  unfold trimEnd, trimStart.
  apply forallb_rev, forallb_dropWhile, forallb_rev, forallb_dropWhile.
  unfold toLowerCase. rewrite chars_str.
  induction (chars v) as [| c l IH]; [reflexivity |].
  cbn [map forallb]. now rewrite lowerChar_not_upper, IH.
Qed.


Lemma In_replace (id : string) (f : User -> User) (c : Collection) (d' : Doc) :
  In d' (replace id f c) ->
  In d' c \/ exists d : Doc, In d c /\ d' = mkDoc (_id d) (f (fields d)).
Proof.
  induction c as [| d c IH]; [intros [] |].
  cbn [replace]. destruct (hasId id d).
  - intros [H | H].
    + right. exists d. split; [now left | now symmetry].
    + left. now right.
  - intros [H | H].
    + left. now left.
    + destruct (IH H) as [H' | [d0 [H0 H1]]].
      * left. now right.
      * right. exists d0. split; [now right | exact H1].
Qed.


(** ** Create: an e-mail already stored *)

Lemma select_email (v : string) (c : Collection) :
  select [On FEmail (EqStr v)] c = Some (filter (emailIs v) c).
Proof.
  induction c as [| d c IH]; [reflexivity |].
  cbn [select filter]. rewrite IH.
  unfold matches, allOpt, satisfies, holds. cbn [fold_right].
  now rewrite Bool.andb_true_r.
Qed.

Lemma filter_head {A : Type} (f : A -> bool) (l : list A) (x : A) :
  In x l -> f x = true -> exists y : A, hd_error (filter f l) = Some y.
Proof.
  intros Hin Hf. assert (H : In x (filter f l)) by (apply filter_In; auto).
  destruct (filter f l) as [| y l']; [contradiction | now exists y].
Qed.

(** C7. When the collection holds a user whose stored e-mail, in lower case
    as every write path stores it, is the e-mail of a creation request up to
    letter case, the request is answered 409 with a conflict on [email] and
    the collection is left as it was. *)
Theorem createUser_conflict :
  forall (c : Collection) (b : CreateBody) (n e e0 : string) (d : Doc),
    b_name b = Some n -> n <> EmptyString ->
    b_email b = Some e -> e <> EmptyString ->
    Spec.lowercased c ->
    In d c -> email (fields d) = Some e0 ->
    toLowerCase e = toLowerCase e0 ->
    run (createUser b) c
    = Some (mkResponse 409 false "User with this email already exists"
              (ConflictField "email"), c).
Proof.
  intros c b n e e0 d Hn Hn0 He He0 Hlow Hin Hd Heq.
  assert (Hstored : toLowerCase e0 = e0) by (apply (Hlow d e0); assumption).
  assert (Hm : emailIs (toLowerCase e) d = true).
  { unfold emailIs. rewrite Hd, Heq, Hstored. apply String.eqb_refl. }
  destruct (filter_head (emailIs (toLowerCase e)) c d Hin Hm) as [d' Hd'].
  unfold run, createUser. rewrite Hn, He.
  apply String.eqb_neq in Hn0, He0.
  unfold truthyStr. rewrite Hn0, He0.
  cbn [negb orb orDefault]. unfold await. cbn [bind interp answer].
  rewrite select_email, Hd'. reflexivity.
Qed.

Lemma createUser_conflict_witness :
  Spec.lowercased [Sample.annDoc]
  /\ run (createUser (mkCreateBody (Some "Ann Lee") (Some "ANN@EXAMPLE.COM")
                                   None None)) [Sample.annDoc]
     = Some (mkResponse 409 false "User with this email already exists"
               (ConflictField "email"), [Sample.annDoc]).
Proof.
  assert (Hlow : Spec.lowercased [Sample.annDoc]).
  { intros d e [Hd | []] He. subst d. simpl in He.
    injection He as He. subst e. reflexivity. }
  split; [exact Hlow |].
  apply (createUser_conflict [Sample.annDoc] _ "Ann Lee" "ANN@EXAMPLE.COM"
           "ann@example.com" Sample.annDoc);
    try reflexivity; try (intros H; discriminate H); try exact Hlow.
  now left.
Defined.

(** ** Update: the stored score *)

(** C2, at its failing input. Ann's record is stored with the score of its
    fields, 76. An update that replaces her hobbies by one hobby is answered
    200; the stored record then has the new hobbies and still the score 76,
    where its fields score 73. The pre-save hook, for its part, assigns the
    score of the fields to the document before it saves. *)
Theorem updateUser_stale_score :
  UserModel.score Sample.ann = profileScore Sample.ann
  /\ (forall this : User,
        exists k : Result User -> Prog (Result User),
          UserModel.preSave this
          = Call (Save (set_profileScore (UserModel.score this) this)) k)
  /\ exists d : Doc,
       run (updateUser Sample.annId
              (mkUpdate None None None (Some ["chess"]) None None))
           [Sample.annDoc]
       = Some (mkResponse 200 true "User updated successfully" (OneDoc d), [d])
       /\ hobbies (fields d) = ["chess"]
       /\ profileScore (fields d) = 76
       /\ UserModel.score (fields d) = 73.
Proof.
  split; [reflexivity |]. split.
  - intros this. unfold UserModel.preSave, UserModel.updateProfileScore, await.
    cbn [bind]. eexists. reflexivity.
  - eexists. split; [reflexivity |]. repeat split.
Qed.

(** ** Statistics: the lowest score *)

Lemma validate_nil (u : User) :
  validate u = [] -> validateName (name u) = None /\ validateEmail (email u) = None.
Proof.
  unfold validate. intros H.
  destruct (validateName (name u)); [discriminate H |].
  destruct (validateEmail (email u)); [discriminate H |].
  split; reflexivity.
Qed.

(** A record that passes the validation of the schema scores 50 or more:
    its name counts for 20 and its e-mail for 30. *)
Lemma valid_score_at_least_50 (u : User) :
  validate u = [] -> 50 <= UserModel.score u.
Proof.
  intros H. destruct (validate_nil u H) as [Hn He].
  unfold validateName in Hn. unfold validateEmail in He.
  unfold UserModel.score. cbv zeta.
  unfold required in *.
  destruct (truthyStr (email u)); [| discriminate He].
  destruct (name u) as [n |]; [| discriminate Hn].
  destruct (truthyStr (Some n)); [| discriminate Hn].
  simpl negb in Hn. cbv iota in Hn.
  destruct (length n <? 2)%Z eqn:E; [discriminate Hn |].
  apply Z.ltb_ge in E. apply Z.leb_le in E. rewrite E.
  cbn [andb].
  destruct (truthyNum (age u)); lia.
Qed.

(** C9, at its failing input. Ann's record passes validation and scores 76.
    An update whose body sets [profileScore] to 0 is answered 200 and stores
    that value; the statistics of the collection, which holds this one
    record, then report a lowest score of 0. *)
Theorem getUserStats_minScore_zero :
  valid Sample.ann = true
  /\ 50 <= UserModel.score Sample.ann
  /\ exists (d : Doc) (r : Response),
       run (updateUser Sample.annId
              (mkUpdate None None None None None (Some 0)))
           [Sample.annDoc]
       = Some (mkResponse 200 true "User updated successfully" (OneDoc d), [d])
       /\ valid (set_profileScore (UserModel.score (fields d)) (fields d)) = true
       /\ run getUserStats [d] = Some (r, [d])
       /\ status r = 200
       /\ payload r = Stats (mkStatsData 1 1 0 0 0).
Proof.
  split; [reflexivity |]. split; [apply valid_score_at_least_50; reflexivity |].
  do 2 eexists. split; [reflexivity |]. repeat split.
Qed.

(** ** Search: what is returned *)

Lemma isDot_metachar (c : ascii) : isDot c = true -> metachar c = true.
Proof.
  unfold isDot, metachar. intros H. apply Z.eqb_eq in H. rewrite H. reflexivity.
Qed.

Lemma compile_plain (l : list ascii) :
  forallb (fun c => negb (metachar c)) l = true -> compile l = Some (map Lit l).
Proof.
  induction l as [| c l IH]; [reflexivity |].
  cbn [forallb]. intros H. apply Bool.andb_true_iff in H. destruct H as [Hc Hl].
  cbn [compile map]. rewrite (IH Hl).
  apply Bool.negb_true_iff in Hc.
  destruct (isDot c) eqn:Ed.
  - apply isDot_metachar in Ed. congruence.
  - now rewrite Hc.
Qed.

Lemma matchHere_literal (ql sl : list ascii) :
  matchHere (map Lit ql) sl = true ->
  exists rest : list ascii, map lowerChar sl = (map lowerChar ql ++ rest)%list.
Proof.
  revert sl. induction ql as [| x ql IH]; intros sl H.
  - exists (map lowerChar sl). reflexivity.
  - destruct sl as [| c sl]; [discriminate H |].
    cbn [map matchHere atomMatches] in H.
    apply Bool.andb_true_iff in H. destruct H as [Hx Hrest].
    apply Ascii.eqb_eq in Hx.
    destruct (IH sl Hrest) as [rest Hr].
    exists rest. cbn [map app]. now rewrite Hx, Hr.
Qed.

Lemma matchAnywhere_literal (ql sl : list ascii) :
  matchAnywhere (map Lit ql) sl = true ->
  exists before after : list ascii,
    map lowerChar sl = (before ++ map lowerChar ql ++ after)%list.
Proof.
  induction sl as [| c sl IH]; intros H.
  - cbn [matchAnywhere] in H. rewrite Bool.orb_false_r in H.
    destruct (matchHere_literal ql [] H) as [rest Hr].
    exists [], rest. exact Hr.
  - cbn [matchAnywhere] in H. apply Bool.orb_true_iff in H.
    destruct H as [H | H].
    + destruct (matchHere_literal ql (c :: sl) H) as [rest Hr].
      exists [], rest. exact Hr.
    + destruct (IH H) as [before [after Hba]].
      exists (lowerChar c :: before), after. cbn [map app]. now rewrite Hba.
Qed.

Lemma regexTest_plain (q s : string) :
  Spec.plain q = true ->
  exists b : bool,
    regexTest q s = Some b /\ (b = true -> Spec.containsIgnoringCase q s).
Proof.
  intros Hq. unfold regexTest. rewrite (compile_plain _ Hq).
  eexists. split; [reflexivity |].
  intros H. apply matchAnywhere_literal. exact H.
Qed.

Lemma anyOpt_defined {A : Type} (f : A -> option bool) (l : list A) :
  (forall x : A, exists b : bool, f x = Some b) ->
  exists b : bool,
    anyOpt f l = Some b
    /\ (b = true -> exists x : A, In x l /\ f x = Some true).
Proof.
  intros Hf. induction l as [| x l IH].
  - exists false. split; [reflexivity | intros H; discriminate H].
  - destruct IH as [b' [Hb' Hw]]. destruct (Hf x) as [b Hb].
    exists (b || b')%bool. unfold anyOpt in *. cbn [fold_right].
    rewrite Hb, Hb'. split; [reflexivity |].
    intros H. apply Bool.orb_true_iff in H. destruct H as [H | H].
    + subst b. exists x. split; [now left | exact Hb].
    + destruct (Hw H) as [y [Hy Hfy]]. exists y. split; [now right | exact Hfy].
Qed.

Lemma select_defined (qr : Query) (c : Collection) :
  (forall d : Doc, exists b : bool, matches qr d = Some b) ->
  exists l : list Doc,
    select qr c = Some l
    /\ forall d : Doc, In d l -> In d c /\ matches qr d = Some true.
Proof.
  intros Hm. induction c as [| d c IH].
  - exists []. split; [reflexivity | intros d []].
  - destruct IH as [l [Hl Hin]]. destruct (Hm d) as [b Hb].
    exists (if b then d :: l else l). cbn [select]. rewrite Hb, Hl.
    split; [reflexivity |].
    intros d' Hd'. destruct b.
    + destruct Hd' as [Hd' | Hd'].
      * subst d'. split; [now left | exact Hb].
      * destruct (Hin d' Hd') as [H1 H2]. split; [now right | exact H2].
    + destruct (Hin d' Hd') as [H1 H2]. split; [now right | exact H2].
Qed.

Lemma matches_hobby_plain (s : string) (d : Doc) :
  Spec.plain s = true ->
  exists b : bool,
    matches [On FHobbies (Regex s)] d = Some b
    /\ (b = true ->
        exists h : string,
          In h (hobbies (fields d)) /\ Spec.containsIgnoringCase s h).
Proof.
  intros Hs.
  destruct (anyOpt_defined (regexTest s) (hobbies (fields d)))
    as [b [Hb Hw]].
  { intros h. destruct (regexTest_plain s h Hs) as [b [Hb _]]. now exists b. }
  exists b. unfold matches, allOpt, satisfies, holds. cbn [fold_right].
  rewrite Hb, Bool.andb_true_r. split; [reflexivity |].
  intros H. destruct (Hw H) as [h [Hin Hh]]. exists h. split; [exact Hin |].
  destruct (regexTest_plain s h Hs) as [b' [Hb' Hc]].
  apply Hc. congruence.
Qed.

Lemma firstn_incl {A : Type} (n : nat) (l : list A) (x : A) :
  In x (firstn n l) -> In x l.
Proof.
  intros H. rewrite <- (firstn_skipn n l). apply in_or_app. now left.
Qed.

(** The store of this development honours the limit. *)
Lemma answer_honoursLimit : Calls.honoursLimit answer.
Proof.
  intros qr o n c c' l Hl Hn. cbn [answer].
  destruct (negb (modelled o)); [intros H; discriminate H |].
  destruct (castFails qr); [intros H; discriminate H |].
  destruct (select qr c) as [docs |]; [| intros H; discriminate H].
  destruct (applySort (sort o) docs) as [sorted |]; [| intros H; discriminate H].
  intros H. injection H as H _. subst l. rewrite Hl. unfold applyLimit.
  destruct (0 <? n)%Z eqn:E; [| apply Z.ltb_ge in E; lia].
  pose proof (firstn_le_length (Z.to_nat n) (applySkip (skip o) sorted)). lia.
Qed.

(** Whatever the store, provided it honours the limit, a search is
    answered with at most 50 records. *)
Lemma searchUsers_capped {S : Type} (h : Answers S) (p : SearchParams)
      (s s' : S) (r : Response) (data : list Doc) (q' f' : string) (n : Z) :
  Calls.honoursLimit h ->
  interp h (searchUsers p) s = Some (r, s') ->
  payload r = SearchResult data q' f' n ->
  (List.length data <= 50)%nat.
Proof.
  intros Hh. unfold searchUsers. cbv zeta.
  destruct (negb (truthyStr (q p))).
  - cbn [interp]. intros H Hp. injection H as H _. subst r. discriminate Hp.
  - destruct (searchQuery _ _) as [qr |].
    + unfold await. cbn [bind interp].
      destruct (h _ (Find qr (mkOptions None None (Some (Int 50)))) s)
        as [[found s1] |] eqn:Hf; [| intros H; discriminate H].
      destruct found as [users | e]; cbn [bind interp]; intros H Hp;
        injection H as H _; subst r; [| discriminate Hp].
      cbn [payload] in Hp. injection Hp as Hd _ _ _. subst data.
      pose proof (Hh qr (mkOptions None None (Some (Int 50))) 50%Z s s1 users
                    eq_refl ltac:(lia) Hf). lia.
    + cbn [interp]. intros H Hp. injection H as H _. subst r. discriminate Hp.
Qed.

Lemma contains_chars (qs s : string) (x : ascii) :
  Spec.containsIgnoringCase qs s ->
  In x (map lowerChar (chars qs)) -> In x (map lowerChar (chars s)).
Proof.
  intros [before [after H]] Hx. rewrite H.
  apply in_or_app. right. apply in_or_app. now left.
Qed.

(** C6, as stated, fails. The search text "c.e" in the field hobby returns
    Ann, whose hobbies are chess and reading: neither holds the text "c.e",
    whatever the letter case. The store reads the text as a regular
    expression, in which the dot stands for any character. *)
Lemma searchUsers_dot_counterexample :
  run (searchUsers (mkSearchParams (Some "c.e") (Some "hobby"))) [Sample.annDoc]
  = Some (mkResponse 200 true
            ("Found 1 user(s) matching " ++ quote ++ "c.e" ++ quote ++ " in hobby")
            (SearchResult [Sample.annDoc] "c.e" "hobby" 1), [Sample.annDoc])
  /\ forall h : string,
       In h (hobbies (fields Sample.annDoc)) ->
       ~ Spec.containsIgnoringCase "c.e" h.
Proof.
  split; [reflexivity |].
  intros h Hh Hc.
  assert (Hdot : In "."%char (map lowerChar (chars h))).
  { apply (contains_chars "c.e" h); [exact Hc |]. simpl. tauto. }
  simpl in Hh. destruct Hh as [Hh | [Hh | []]]; subst h; simpl in Hdot;
    repeat (destruct Hdot as [Hdot | Hdot]; [discriminate Hdot |]);
    exact Hdot.
Qed.

(** C6, amended. A search in the field hobby for a text that holds no
    metacharacter of regular expressions is answered with users of the
    collection that each have a hobby holding the text, letter case put
    aside; and the answer to a search request, whatever its field and its
    text, carries at most 50 records: the handler asks for at most 50, so
    that the bound holds against every store that honours the limit it is
    asked for, as the store of this development does. *)
Theorem searchUsers_hobby_plain :
  forall (c : Collection) (p : SearchParams) (s : string),
    q p = Some s -> s <> EmptyString -> Spec.plain s = true ->
    field p = Some "hobby" ->
    (exists users : list Doc,
        run (searchUsers p) c
        = Some (mkResponse 200 true
                  ("Found " ++ decimal (List.length users)
                   ++ " user(s) matching " ++ quote ++ s ++ quote ++ " in hobby")
                  (SearchResult users s "hobby" (Z.of_nat (List.length users))),
                c)
        /\ forall d : Doc,
             In d users ->
             In d c
             /\ exists h : string,
                  In h (hobbies (fields d)) /\ Spec.containsIgnoringCase s h)
    /\ (forall (S : Type) (h : Answers S) (p' : SearchParams) (st st' : S)
               (r : Response) (data : list Doc) (s' f' : string) (n : Z),
          Calls.honoursLimit h ->
          interp h (searchUsers p') st = Some (r, st') ->
          payload r = SearchResult data s' f' n ->
          (List.length data <= 50)%nat)
    /\ Calls.honoursLimit answer.
Proof.
  intros c p s Hq Hne Hplain Hf. split.
  - destruct (select_defined [On FHobbies (Regex s)] c) as [l [Hl Hin]].
    { intros d. destruct (matches_hobby_plain s d Hplain) as [b [Hb _]].
      now exists b. }
    exists (firstn 50 l). split.
    + unfold run, searchUsers. cbv zeta. rewrite Hq, Hf.
      apply String.eqb_neq in Hne. unfold truthyStr. rewrite Hne.
      cbn [negb orDefault]. change (searchQuery s "hobby")
        with (Some [On FHobbies (Regex s)]).
      unfold await. cbn [bind interp answer sort skip Mongo.limit].
      rewrite Hl. reflexivity.
    + intros d Hd. apply firstn_incl in Hd. destruct (Hin d Hd) as [Hc Hm].
      split; [exact Hc |].
      destruct (matches_hobby_plain s d Hplain) as [b [Hb Hw]].
      apply Hw. congruence.
  - split; [| exact answer_honoursLimit].
    intros S h p' st st' r data s' f' n. apply searchUsers_capped.
Qed.

Lemma searchUsers_hobby_plain_witness :
  exists users : list Doc,
    run (searchUsers (mkSearchParams (Some "CHESS") (Some "hobby")))
        [Sample.annDoc]
    = Some (mkResponse 200 true
              ("Found " ++ decimal (List.length users)
               ++ " user(s) matching " ++ quote ++ "CHESS" ++ quote ++ " in hobby")
              (SearchResult users "CHESS" "hobby" (Z.of_nat (List.length users))),
            [Sample.annDoc])
    /\ (forall d : Doc,
          In d users ->
          In d [Sample.annDoc]
          /\ exists h : string,
               In h (hobbies (fields d)) /\ Spec.containsIgnoringCase "CHESS" h)
    /\ (List.length users <= 50)%nat.
Proof.
  destruct (searchUsers_hobby_plain [Sample.annDoc]
              (mkSearchParams (Some "CHESS") (Some "hobby")) "CHESS"
              eq_refl
              (fun H : "CHESS" = EmptyString =>
                 eq_ind "CHESS"
                   (fun x => match x with EmptyString => False | _ => True end)
                   I EmptyString H)
              eq_refl eq_refl) as [[users [Hrun Hall]] [Hcap Hstore]].
  exists users. split; [exact Hrun |]. split; [exact Hall |].
  exact (Hcap _ answer _ _ _ _ users _ _ _ Hstore Hrun eq_refl).
Defined.

End UserControllerFacts.

(* ===================================================================== *)
(** * Further properties of the model *)
(* ===================================================================== *)

Module ModelExtras.

Import JS Model Mongo UserModel.

(** ** The score *)

Lemma set_hobbies_same (this : User) : set_hobbies (hobbies this) this = this.
Proof. destruct this. reflexivity. Qed.

(** The score is what the name, the e-mail and the age bring, at most 70,
    plus what the hobbies bring. *)
Lemma score_hobbies (this : User) :
  exists b : Z,
    0 <= b <= 70
    /\ forall hs : list string,
         score (set_hobbies hs this)
         = b + Z.min (Z.of_nat (List.length hs) * 3) 30.
Proof.
  unfold score. cbv zeta. cbn [name email age hobbies set_hobbies].
  destruct (truthyStr (name this)
            && match name this with
               | Some n => 2 <=? length n
               | None => false
               end);
    destruct (truthyStr (email this)); destruct (truthyNum (age this));
    eexists; (split; [| intros hs; reflexivity]); lia.
Qed.

(** X1. Whatever the record, the score that [updateProfileScore] assigns
    lies between 0 and 100, and so passes the validators that the schema
    puts on [profileScore]. *)
Theorem score_within_bounds :
  forall this : User,
    0 <= score this <= 100
    /\ validateProfileScore
         (profileScore (set_profileScore (score this) this)) = None.
Proof.
  intros this.
  assert (H : 0 <= score this <= 100).
  { destruct (score_hobbies this) as [b [Hb Hs]].
    rewrite <- (set_hobbies_same this), Hs.
    pose proof (Zle_0_nat (List.length (hobbies this))). lia. }
  split; [exact H |].
  cbn [profileScore set_profileScore]. unfold validateProfileScore.
  destruct (score this <? 0) eqn:E1; [apply Z.ltb_lt in E1; lia |].
  destruct (100 <? score this) eqn:E2; [apply Z.ltb_lt in E2; lia |].
  reflexivity.
Qed.

(** ** Hobbies and the score *)

Lemma includes_absent (l : list string) (x : string) :
  ~ In x l -> includes l x = false.
Proof.
  intros H. destruct (includes l x) eqn:E; [| reflexivity].
  apply UserModelFacts.includes_In in E. contradiction.
Qed.

(** X2. Adding a hobby that the record does not list, while it lists fewer
    than 10, calls [save] on the record with the trimmed hobby appended: the
    record handed to [save] has one hobby more, still at most 10, the score
    that its fields add up to is higher by exactly 3, and its stored
    [profileScore] is still the old one at that point. From 10 hobbies on,
    the call resolves with the record as it is, without calling [save] and
    without an error. *)
Theorem addHobby_new :
  forall (this : User) (hobby : string),
    ~ In hobby (hobbies this) ->
    ((List.length (hobbies this) < 10)%nat ->
     addHobby this hobby = await (Save (push this hobby))
     /\ hobbies (push this hobby) = hobbies this ++ [trim hobby]
     /\ List.length (hobbies (push this hobby)) = S (List.length (hobbies this))
     /\ (List.length (hobbies (push this hobby)) <= 10)%nat
     /\ score (push this hobby) = score this + 3
     /\ profileScore (push this hobby) = profileScore this)
    /\ ((10 <= List.length (hobbies this))%nat ->
        addHobby this hobby = Ret (Ok this)).
Proof.
  intros this hobby Hnew. split.
  - intros Hroom.
    assert (Hlen : List.length (hobbies (push this hobby))
                   = S (List.length (hobbies this))).
    { unfold push. cbn [hobbies set_hobbies]. rewrite length_app. simpl. lia. }
    split; [| split; [reflexivity | split; [exact Hlen | split; [lia |]]]].
    + unfold addHobby. rewrite (includes_absent _ _ Hnew).
      destruct (Z.of_nat (List.length (hobbies this)) <? 10) eqn:E;
        [reflexivity | apply Z.ltb_ge in E; lia].
    + split; [| reflexivity].
      destruct (score_hobbies this) as [b [Hb Hs]].
      rewrite <- (set_hobbies_same this) at 2. unfold push.
      rewrite !Hs. rewrite length_app. simpl List.length. lia.
  - intros Hfull. unfold addHobby.
    destruct (Z.of_nat (List.length (hobbies this)) <? 10) eqn:E.
    + apply Z.ltb_lt in E. lia.
    + now rewrite Bool.andb_false_r.
Qed.

Lemma addHobby_new_witness :
  (addHobby Sample.ann " golf "%string
   = await (Save (set_hobbies ["chess"; "reading"; "golf"]%string Sample.ann))
   /\ score (push Sample.ann " golf "%string) = 79
   /\ profileScore (push Sample.ann " golf "%string) = 76)
  /\ addHobby MoreSample.full "sailing"%string = Ret (Ok MoreSample.full).
Proof.
  split.
  - destruct (proj1 (addHobby_new Sample.ann " golf "%string
                       ltac:(simpl; intros [H | [H | H]];
                             [discriminate H | discriminate H | exact H]))
                ltac:(simpl; lia)) as [H1 [_ [_ [_ [H4 H5]]]]].
    split; [exact H1 | split; [exact H4 | exact H5]].
  - apply (proj2 (addHobby_new MoreSample.full "sailing"%string
                    ltac:(simpl; intuition discriminate))).
    simpl. lia.
Defined.

Lemma In_first (l : list string) (x : string) :
  In x l -> exists l1 l2 : list string, l = l1 ++ x :: l2 /\ ~ In x l1.
Proof.
  induction l as [| y l IH]; [intros [] |].
  intros H. destruct (string_dec y x) as [E | E].
  - subst y. exists [], l. split; [reflexivity | intros []].
  - destruct H as [H | H]; [contradiction |].
    destruct (IH H) as [l1 [l2 [Hl Hn]]].
    exists (y :: l1), l2. split; [now rewrite Hl |].
    intros [H' | H']; [contradiction | now apply Hn].
Qed.

(** X3. Removing a hobby that the record lists calls [save] on the record
    with one hobby fewer; the stored [profileScore] of the record handed to
    [save] is still the old one at that point, and when the record had at
    most 10 hobbies, as validation requires, the score that its fields add
    up to is lower by exactly 3. *)
Theorem removeHobby_listed :
  forall (this : User) (hobby : string),
    In hobby (hobbies this) ->
    exists rest : list string,
      removeHobby this hobby = await (Save (set_hobbies rest this))
      /\ S (List.length rest) = List.length (hobbies this)
      /\ profileScore (set_hobbies rest this) = profileScore this
      /\ ((List.length (hobbies this) <= 10)%nat ->
          score (set_hobbies rest this) = score this - 3).
Proof.
  intros this hobby Hin.
  destruct (In_first _ _ Hin) as [l1 [l2 [Hl Hn]]].
  exists (l1 ++ l2). split; [| split; [| split; [reflexivity |]]].
  - unfold removeHobby. rewrite Hl.
    rewrite UserModelFacts.indexOf_first by assumption.
    rewrite UserModelFacts.splice1_middle.
    destruct (-1 <? Z.of_nat (List.length l1)) eqn:E; [reflexivity |].
    apply Z.ltb_ge in E. lia.
  - rewrite Hl, !length_app. simpl. lia.
  - intros Hmax. destruct (score_hobbies this) as [b [Hb Hs]].
    rewrite <- (set_hobbies_same this) at 2. rewrite !Hs.
    rewrite Hl in *. rewrite !length_app in *. simpl List.length in *. lia.
Qed.

Lemma removeHobby_listed_witness :
  exists rest : list string,
    removeHobby Sample.ann "chess"%string
    = await (Save (set_hobbies rest Sample.ann))
    /\ S (List.length rest) = 2%nat
    /\ score (set_hobbies rest Sample.ann) = 73.
Proof.
  destruct (removeHobby_listed Sample.ann "chess"%string ltac:(now left))
    as [rest [H1 [H2 [_ H3]]]].
  exists rest. split; [exact H1 |]. split; [exact H2 |].
  apply H3. simpl. lia.
Defined.

(** ** Age groups *)

(** X4. For an age that the schema admits, the [ageGroup] virtual and the
    age buckets of the statistics agree below 100: Minor is the bucket 0,
    Young Adult the bucket 18, Adult the bucket 30, Senior the bucket 50.
    From 100 to 120 the virtual says Senior while the statistics count the
    user in the default bucket. *)
Theorem ageGroup_bucket :
  forall (this : User) (a : Z),
    age this = Some a ->
    validateAge (age this) = None ->
    (a < 100 ->
     (Virtuals.ageGroup this = "Minor"%string /\ Pipeline.ageBucket a = Some 0)
     \/ (Virtuals.ageGroup this = "Young Adult"%string
         /\ Pipeline.ageBucket a = Some 18)
     \/ (Virtuals.ageGroup this = "Adult"%string /\ Pipeline.ageBucket a = Some 30)
     \/ (Virtuals.ageGroup this = "Senior"%string
         /\ Pipeline.ageBucket a = Some 50))
    /\ (100 <= a ->
        Virtuals.ageGroup this = "Senior"%string /\ Pipeline.ageBucket a = None).
Proof.
  intros this a Ha Hv. rewrite Ha in Hv. unfold validateAge in Hv.
  destruct (a <? 13) eqn:E13; [discriminate Hv |].
  destruct (120 <? a) eqn:E120; [discriminate Hv |].
  apply Z.ltb_ge in E13, E120.
  assert (Ht : truthyNum (Some a) = true).
  { simpl. destruct (a =? 0) eqn:E0; [apply Z.eqb_eq in E0; lia | reflexivity]. }
  unfold Virtuals.ageGroup. rewrite Ha, Ht. cbn [negb].
  unfold Pipeline.ageBucket, Pipeline.boundaries. cbn [Pipeline.bucket].
  destruct (a <? 18) eqn:E18; destruct (a <? 30) eqn:E30;
    destruct (a <? 50) eqn:E50; destruct (a <? 100) eqn:E100;
    destruct (0 <=? a) eqn:G0; destruct (18 <=? a) eqn:G18;
    destruct (30 <=? a) eqn:G30; destruct (50 <=? a) eqn:G50;
    repeat match goal with
           | H : (_ <? _) = true |- _ => apply Z.ltb_lt in H
           | H : (_ <? _) = false |- _ => apply Z.ltb_ge in H
           | H : (_ <=? _) = true |- _ => apply Z.leb_le in H
           | H : (_ <=? _) = false |- _ => apply Z.leb_gt in H
           end;
    try lia; cbn [andb]; split; intros; try lia; tauto.
Qed.

Lemma ageGroup_bucket_witness :
  Virtuals.ageGroup Sample.ann = "Young Adult"%string
  /\ Pipeline.ageBucket 25 = Some 18.
Proof.
  destruct (ageGroup_bucket Sample.ann 25 eq_refl eq_refl) as [H _].
  destruct (H ltac:(lia)) as [[H1 H2] | [[H1 H2] | [[H1 H2] | [H1 H2]]]];
    try discriminate H1.
  split; [exact H1 | exact H2].
Defined.

(** ** Validation *)

Lemma report_paths (p : Path) (e : option string) :
  map fst (report p e) = [] \/ map fst (report p e) = [p].
Proof. destruct e; [now right | now left]. Qed.

Lemma validateEach_paths (l : list string) (i : nat) (p : Path) :
  In p (map fst (validateEach i l)) -> exists j : nat, p = PHobby j /\ (i <= j)%nat.
Proof.
  revert i. induction l as [| h l IH]; intros i; [intros [] |].
  cbn [validateEach]. rewrite map_app, in_app_iff. intros [H | H].
  - destruct (validateHobby h); [| destruct H].
    destruct H as [H | []]. exists i. split; [now symmetry | lia].
  - destruct (IH (S i) H) as [j [Hj Hle]]. exists j. split; [exact Hj | lia].
Qed.

Lemma validateEach_NoDup (l : list string) (i : nat) :
  NoDup (map fst (validateEach i l)).
Proof.
  revert i. induction l as [| h l IH]; intros i; [constructor |].
  cbn [validateEach]. rewrite map_app.
  destruct (validateHobby h); cbn [report map app]; [| apply IH].
  constructor; [| apply IH].
  intros H. destruct (validateEach_paths l (S i) _ H) as [j [Hj Hle]].
  injection Hj as Hj. lia.
Qed.

Lemma NoDup_append {A : Type} (a b : list A) :
  NoDup a -> NoDup b -> (forall x : A, In x a -> ~ In x b) -> NoDup (a ++ b).
Proof.
  intros Ha Hb Hd. induction Ha as [| x a Hx Ha IH]; [exact Hb |].
  cbn [app]. constructor.
  - rewrite in_app_iff. intros [H | H]; [contradiction |].
    apply (Hd x); [now left | exact H].
  - apply IH. intros y Hy. apply Hd. now right.
Qed.

(** X5. Validation reports at most one message per path: the paths of the
    field errors of a record are pairwise distinct. *)
Theorem validate_one_message_per_path :
  forall u : User, NoDup (map fst (validate u)).
Proof.
  intros u. unfold validate. rewrite !map_app.
  pose proof (validateEach_NoDup (hobbies u) 0) as HE.
  pose proof (validateEach_paths (hobbies u) 0) as HP.
  set (E := map fst (validateEach 0 (hobbies u))) in *.
  assert (Hh : forall p, In p E -> p <> PName /\ p <> PEmail /\ p <> PAge
                                  /\ p <> PHobbies /\ p <> PProfileScore).
  { intros p Hp. destruct (HP p Hp) as [j [Hj _]]. subst p.
    repeat split; discriminate. }
  assert (Htail : forall t : list Path,
             NoDup t -> (forall p, In p t -> p = PHobbies \/ p = PProfileScore) ->
             NoDup (E ++ t)).
  { intros t Ht Hin. apply NoDup_append; [exact HE | exact Ht |].
    intros p Hp Hpt. destruct (Hh p Hp) as [_ [_ [_ [H4 H5]]]].
    destruct (Hin p Hpt); contradiction. }
  assert (Hfront : forall t : list Path,
             NoDup (E ++ t) ->
             (forall p, In p t -> p = PHobbies \/ p = PProfileScore) ->
             forall q : Path, (q = PName \/ q = PEmail \/ q = PAge) ->
               ~ In q (E ++ t)).
  { intros t _ Hin q Hq Hm. apply in_app_iff in Hm. destruct Hm as [Hm | Hm].
    - destruct (Hh q Hm) as [H1 [H2 [H3 _]]].
      destruct Hq as [Hq | [Hq | Hq]]; contradiction.
    - destruct (Hin q Hm) as [H | H]; rewrite H in Hq;
        destruct Hq as [Hq | [Hq | Hq]]; discriminate Hq. }
  destruct (report_paths PName (validateName (name u))) as [R1 | R1];
    destruct (report_paths PEmail (validateEmail (email u))) as [R2 | R2];
    destruct (report_paths PAge (validateAge (age u))) as [R3 | R3];
    destruct (report_paths PHobbies (validateHobbies (hobbies u))) as [R4 | R4];
    destruct (report_paths PProfileScore
                (validateProfileScore (profileScore u))) as [R5 | R5];
    rewrite R1, R2, R3, R4, R5; cbn [app];
    repeat match goal with
           | |- NoDup (?q :: _) =>
               constructor;
               [ cbn [In]; intros Hq;
                 repeat match type of Hq with
                        | _ \/ _ => destruct Hq as [Hq | Hq]; [discriminate Hq |]
                        end;
                 revert Hq;
                 first [ apply Hfront;
                         [ apply Htail;
                           [ repeat constructor; cbn [In]; intuition discriminate
                           | cbn [In]; intuition ]
                         | cbn [In]; intuition
                         | tauto ]
                       | idtac ]
               | ]
           end;
    try (apply Htail;
         [ repeat constructor; cbn [In]; intuition discriminate
         | cbn [In]; intuition ]).
Qed.

(** ** The e-mail address *)

Lemma splitFirst_spec {A : Type} (p : A -> bool) (l a b : list A) :
  splitFirst p l = Some (a, b) ->
  exists x : A,
    p x = true /\ l = a ++ x :: b /\ forallb (fun y => negb (p y)) a = true.
Proof.
  revert a b. induction l as [| y l IH]; intros a b H; [discriminate H |].
  cbn [splitFirst] in H. destruct (p y) eqn:Ey.
  - injection H as Ha Hb. subst a b. exists y. repeat split. exact Ey.
  - destruct (splitFirst p l) as [[a' b'] |]; [| discriminate H].
    injection H as Ha Hb. subst a b.
    destruct (IH a' b' eq_refl) as [x [Hx [Hl Hf]]].
    exists x. split; [exact Hx |]. split; [now rewrite Hl |].
    cbn [forallb]. now rewrite Ey, Hf.
Qed.

Lemma splitFirst_none {A : Type} (p : A -> bool) (l : list A) :
  forallb (fun y => negb (p y)) l = true -> splitFirst p l = None.
Proof.
  induction l as [| y l IH]; [reflexivity |].
  cbn [forallb splitFirst]. intros H. apply Bool.andb_true_iff in H.
  destruct H as [Hy Hl]. apply Bool.negb_true_iff in Hy.
  now rewrite Hy, (IH Hl).
Qed.

Lemma splitFirst_app {A : Type} (p : A -> bool) (a b : list A) (x : A) :
  forallb (fun y => negb (p y)) a = true -> p x = true ->
  splitFirst p (a ++ x :: b) = Some (a, b).
Proof.
  intros Ha Hx. induction a as [| y a IH].
  - cbn [app splitFirst]. now rewrite Hx.
  - cbn [forallb] in Ha. apply Bool.andb_true_iff in Ha.
    destruct Ha as [Hy Ha]. apply Bool.negb_true_iff in Hy.
    cbn [app splitFirst]. now rewrite Hy, (IH Ha).
Qed.

Lemma splitLast_spec {A : Type} (p : A -> bool) (l a b : list A) :
  splitLast p l = Some (a, b) ->
  exists x : A,
    p x = true /\ l = a ++ x :: b /\ forallb (fun y => negb (p y)) b = true.
Proof.
  unfold splitLast. intros H.
  destruct (splitFirst p (rev l)) as [[b' a'] |] eqn:E; [| discriminate H].
  injection H as Ha Hb. subst a b.
  destruct (splitFirst_spec p _ _ _ E) as [x [Hx [Hl Hf]]].
  exists x. split; [exact Hx |]. split.
  - rewrite <- (rev_involutive l), Hl, rev_app_distr. cbn [rev].
    now rewrite <- app_assoc.
  - apply UserControllerFacts.forallb_rev. exact Hf.
Qed.

Lemma isAt_char (c : ascii) : isAt c = true -> c = "@"%char.
Proof.
  destruct c as [[] [] [] [] [] [] [] []]; intros H;
    first [discriminate H | reflexivity].
Qed.

Lemma isDot_char (c : ascii) : isDot c = true -> c = "."%char.
Proof.
  destruct c as [[] [] [] [] [] [] [] []]; intros H;
    first [discriminate H | reflexivity].
Qed.

Lemma count_at_none (f : ascii -> bool) (l : list ascii) :
  f "@"%char = false -> forallb f l = true ->
  count_occ ascii_dec l "@"%char = 0%nat.
Proof.
  intros Hf. induction l as [| c l IH]; [reflexivity |].
  cbn [forallb]. intros H. apply Bool.andb_true_iff in H. destruct H as [Hc Hl].
  cbn [count_occ]. destruct (ascii_dec c "@"%char) as [E | E].
  - subst c. congruence.
  - apply IH. exact Hl.
Qed.

(** X6. An e-mail address that passes the validators of the schema reads
    local part, at sign, domain, dot, final label, with the local part and
    the domain not empty and made of the characters of their class, a final
    label of at least two letters, and exactly one at sign in all; its
    domain is not one of the disposable ones. *)
Theorem validateEmail_shape :
  forall s : string,
    validateEmail (Some s) = None ->
    exists loc dom tld : list ascii,
      chars s = loc ++ "@"%char :: dom ++ "."%char :: tld
      /\ loc <> [] /\ dom <> [] /\ (2 <= List.length tld)%nat
      /\ forallb localChar loc = true
      /\ forallb domainChar dom = true
      /\ forallb isLetter tld = true
      /\ count_occ ascii_dec (chars s) "@"%char = 1%nat
      /\ notDisposable s = true.
Proof.
  intros s H. unfold validateEmail in H.
  destruct (negb (required (Some s))); [discriminate H |].
  destruct (emailPattern s) eqn:Ep; [| discriminate H].
  destruct (notDisposable s) eqn:Ed; [| discriminate H].
  clear H. unfold emailPattern in Ep.
  destruct (splitFirst isAt (chars s)) as [[loc rest] |] eqn:E1;
    [| discriminate Ep].
  destruct (splitLast isDot rest) as [[dom tld] |] eqn:E2.
  2:{ rewrite Bool.andb_false_r in Ep. discriminate Ep. }
  apply Bool.andb_true_iff in Ep. destruct Ep as [Ep Hm].
  apply Bool.andb_true_iff in Ep. destruct Ep as [Hne Hloc].
  apply Bool.andb_true_iff in Hm. destruct Hm as [Hm Htld].
  apply Bool.andb_true_iff in Hm. destruct Hm as [Hm Hlen].
  apply Bool.andb_true_iff in Hm. destruct Hm as [Hnd Hdom].
  destruct (splitFirst_spec _ _ _ _ E1) as [x [Hx [Hl _]]].
  destruct (splitLast_spec _ _ _ _ E2) as [y [Hy [Hr _]]].
  apply isAt_char in Hx. apply isDot_char in Hy. subst x y.
  exists loc, dom, tld.
  assert (Hs : chars s = loc ++ "@"%char :: dom ++ "."%char :: tld)
    by (now rewrite Hl, Hr).
  split; [exact Hs |].
  split; [destruct loc; [discriminate Hne | discriminate] |].
  split; [destruct dom; [discriminate Hnd | discriminate] |].
  split; [apply Z.leb_le in Hlen; lia |].
  split; [assumption |]. split; [assumption |]. split; [assumption |].
  split; [| reflexivity].
  rewrite Hs, count_occ_app. cbn [count_occ].
  destruct (ascii_dec "@"%char "@"%char) as [_ | N]; [| now contradiction N].
  rewrite count_occ_app. cbn [count_occ].
  destruct (ascii_dec "."%char "@"%char) as [N | _]; [discriminate N |].
  rewrite (count_at_none localChar loc), (count_at_none domainChar dom),
    (count_at_none isLetter tld) by (assumption || reflexivity).
  reflexivity.
Qed.

Lemma validateEmail_shape_witness :
  exists loc dom tld : list ascii,
    chars "ann@example.com"
    = loc ++ "@"%char :: dom ++ "."%char :: tld
    /\ (2 <= List.length tld)%nat
    /\ count_occ ascii_dec (chars "ann@example.com") "@"%char = 1%nat.
Proof.
  destruct (validateEmail_shape "ann@example.com" eq_refl)
    as [loc [dom [tld [H1 [_ [_ [H4 [_ [_ [_ [H8 _]]]]]]]]]]].
  exists loc, dom, tld. split; [exact H1 |]. split; [exact H4 | exact H8].
Defined.

(** X7. An address whose part after the at sign is, up to letter case, one
    of the disposable domains is rejected by the validators of the schema,
    whatever its local part. *)
Theorem validateEmail_disposable :
  forall loc dom : list ascii,
    forallb (fun c => negb (isAt c)) loc = true ->
    forallb (fun c => negb (isAt c)) dom = true ->
    In (toLowerCase (str dom)) disposableDomains ->
    validateEmail (Some (str (loc ++ "@"%char :: dom))) <> None.
Proof.
  intros loc dom Hloc Hdom Hin.
  assert (Hd : notDisposable (str (loc ++ "@"%char :: dom)) = false).
  { unfold notDisposable, domainOf.
    rewrite UserControllerFacts.chars_str.
    rewrite (splitFirst_app isAt loc dom "@"%char Hloc eq_refl).
    rewrite (splitFirst_none isAt dom Hdom).
    apply UserModelFacts.includes_In in Hin. now rewrite Hin. }
  unfold validateEmail.
  destruct (negb (required (Some (str (loc ++ "@"%char :: dom)))));
    [discriminate |].
  destruct (negb (emailPattern (str (loc ++ "@"%char :: dom))));
    [discriminate |].
  rewrite Hd. discriminate.
Qed.

Lemma validateEmail_disposable_witness :
  validateEmail (Some "joe@TempMail.com"%string) <> None.
Proof.
  apply (validateEmail_disposable
           (chars "joe"%string) (chars "TempMail.com"%string));
    [reflexivity | reflexivity | now left].
Defined.

End ModelExtras.

(* ===================================================================== *)
(** * Further properties of the handlers *)
(* ===================================================================== *)

Module ControllerExtras.

Import JS Model Mongo Store UserController Calls.
Local Open Scope string_scope.

(** ** Trimming *)

Lemma dropWhile_length {A : Type} (p : A -> bool) (l : list A) :
  (List.length (dropWhile p l) <= List.length l)%nat.
Proof.
  induction l as [| x l IH]; [apply le_n |].
  cbn [dropWhile]. destruct (p x); cbn [List.length]; lia.
Qed.

Lemma dropWhile_twice {A : Type} (p : A -> bool) (l : list A) :
  dropWhile p (dropWhile p l) = dropWhile p l.
Proof.
  induction l as [| x l IH]; [reflexivity |].
  cbn [dropWhile]. destruct (p x) eqn:E; [exact IH |].
  cbn [dropWhile]. now rewrite E.
Qed.

Lemma dropWhile_snoc {A : Type} (p : A -> bool) (m : list A) (x : A) :
  p x = false -> dropWhile p (m ++ [x]) = (dropWhile p m ++ [x])%list.
Proof.
  intros Hx. induction m as [| y m IH].
  - cbn [app dropWhile]. now rewrite Hx.
  - cbn [app dropWhile]. destruct (p y); [exact IH | reflexivity].
Qed.

Lemma dropWhile_fixed_head {A : Type} (p : A -> bool) (x : A) (l : list A) :
  dropWhile p (x :: l) = x :: l -> p x = false.
Proof.
  cbn [dropWhile]. destruct (p x); [| reflexivity].
  intros H. pose proof (dropWhile_length p l) as Hl.
  rewrite H in Hl. cbn [List.length] in Hl. lia.
Qed.

Lemma trimEnd_keeps_start (l : list ascii) :
  trimStart l = l -> trimStart (trimEnd l) = trimEnd l.
Proof.
  unfold trimStart, trimEnd. destruct l as [| x l]; [reflexivity |].
  intros H. apply dropWhile_fixed_head in H.
  cbn [rev]. rewrite (dropWhile_snoc _ _ _ H), rev_app_distr.
  cbn [rev app dropWhile]. now rewrite H.
Qed.

Lemma trimEnd_twice (l : list ascii) : trimEnd (trimEnd l) = trimEnd l.
Proof.
  unfold trimEnd. now rewrite rev_involutive, dropWhile_twice.
Qed.

Lemma trim_trimmed (s : string) : trimmed (trim s).
Proof.
  unfold trimmed, trim. rewrite UserControllerFacts.chars_str.
  rewrite trimEnd_keeps_start by apply dropWhile_twice.
  now rewrite trimEnd_twice.
Qed.

Lemma Forall_trimmed (hs : list string) : Forall trimmed (map trim hs).
Proof.
  induction hs as [| h hs IH]; constructor; [apply trim_trimmed | exact IH].
Qed.

Lemma empty_trimmed : trimmed EmptyString.
Proof. reflexivity. Qed.

Lemma truthyStr_false (v : option string) (s : string) :
  truthyStr v = false -> v = Some s -> s = EmptyString.
Proof.
  intros H Hv. subst v. simpl in H. apply Bool.negb_false_iff in H.
  now apply String.eqb_eq in H.
Qed.

(** ** What the handlers ask of the store *)

(** X8. Whatever the body and whatever the store answers, a creation
    request only ever looks a user up and creates one, and the user it hands
    over for creation has a trimmed name, a trimmed e-mail in lower case and
    trimmed hobbies. *)
Theorem createUser_calls :
  forall b : CreateBody, always creation (createUser b).
Proof.
  intros b. unfold createUser.
  destruct (negb (truthyStr (b_name b)) || negb (truthyStr (b_email b)));
    [exact I |].
  cbv zeta. unfold await. cbn [bind always creation].
  split; [exact I |]. intros [[d |] | e]; cbn [bind always creation];
    try exact I.
  split.
  - cbn [d_name d_email d_hobbies].
    split; [apply trim_trimmed |]. split; [apply trim_trimmed |].
    split; [apply UserControllerFacts.emailSetter_lowercase |].
    destruct (b_hobbies b); [apply Forall_trimmed | constructor].
  - intros [saved | [errors | | |]]; exact I.
Qed.

(** X9. Whatever the body and whatever the store answers, an update request
    only ever looks a user up and updates the document named by its [id].
    In the update it hands over, the name is trimmed, the e-mail is trimmed
    and in lower case, and the hobbies are trimmed when they came as an
    array; a [hobbies] that is not an array, the keys that the schema does
    not know (update operators among them), the active flag and the score
    are handed over as they came. *)
Theorem updateUser_calls :
  forall (id : string) (body : UpdateData),
    always (updating id body) (updateUser id body).
Proof.
  intros id body.
  assert (Hfin : forall upd : UpdateData,
             (forall e, u_email upd = Some e -> trimmed e /\ toLowerCase e = e) ->
             u_hobbiesOther upd = u_hobbiesOther body ->
             u_rest upd = u_rest body ->
             u_isActive upd = u_isActive body ->
             u_profileScore upd = u_profileScore body ->
             always (updating id body) (findAndUpdate id upd)).
  { intros upd He Ho Hr Ha Hp. unfold findAndUpdate, await.
    cbn [bind always updating]. split.
    - split; [reflexivity |]. unfold cleanUpdate.
      cbn [u_email u_name u_hobbies u_hobbiesOther u_rest u_isActive
           u_profileScore].
      split; [exact He |]. split; [| split; [| auto]].
      + intros n Hn. destruct (truthyStr (u_name upd)) eqn:Et.
        * destruct (u_name upd); [| discriminate Hn].
          injection Hn as Hn. subst n. apply trim_trimmed.
        * rewrite (truthyStr_false _ _ Et Hn). apply empty_trimmed.
      + intros hs Hhs. destruct (u_hobbies upd); [| discriminate Hhs].
        injection Hhs as Hhs. subst hs. apply Forall_trimmed.
    - intros [[d |] | e]; exact I. }
  unfold updateUser. destruct (negb (isObjectId id)); [exact I |].
  cbv zeta. destruct (truthyStr (u_email body)) eqn:Et.
  - unfold await. cbn [bind always updating]. split; [exact I |].
    intros [[d |] | e]; cbn [bind always]; try exact I.
    apply Hfin; try reflexivity. cbn [u_email]. intros e He.
    injection He as He. subst e.
    split; [apply trim_trimmed | apply UserControllerFacts.emailSetter_lowercase].
  - apply Hfin; try reflexivity. intros e He.
    rewrite (truthyStr_false _ _ Et He). split; reflexivity.
Qed.

Lemma reads_keep (R : Type) (p : Prog R) :
  always reads p ->
  forall (c c' : Collection) (r : R), run p c = Some (r, c') -> c' = c.
Proof.
  unfold run. induction p as [r0 | X call k IH]; intros Hp c c' r H.
  - cbn [interp] in H. now injection H as _ H.
  - cbn [always] in Hp. destruct Hp as [Hc Hk]. cbn [interp] in H.
    destruct call as [qr | data | this | id upd | qr o | qr |];
      cbn [reads] in Hc; try contradiction; cbn [answer] in H.
    + destruct (castFails qr); [apply (IH _ (Hk _) _ _ _ H) |].
      destruct (select qr c); [| discriminate H]. apply (IH _ (Hk _) _ _ _ H).
    + destruct (negb (modelled o)); [discriminate H |].
      destruct (castFails qr); [apply (IH _ (Hk _) _ _ _ H) |].
      destruct (select qr c) as [l |]; [| discriminate H].
      destruct (applySort (sort o) l); [| discriminate H].
      apply (IH _ (Hk _) _ _ _ H).
    + destruct (castFails qr); [apply (IH _ (Hk _) _ _ _ H) |].
      destruct (select qr c); [| discriminate H]. apply (IH _ (Hk _) _ _ _ H).
    + apply (IH _ (Hk _) _ _ _ H).
Qed.

(** X10. The list, search, look-up and statistics handlers only ever read:
    whatever the request and whatever the store answers, none of them
    issues a call that can change the collection, and a run of any of them
    leaves the collection as it was. *)
Theorem read_handlers_only_read :
  ((forall p : ListParams, always reads (getAllUsers p))
   /\ (forall p : SearchParams, always reads (searchUsers p))
   /\ (forall id : string, always reads (Lookup.getUserById id))
   /\ always reads getUserStats)
  /\ (forall (R : Type) (p : Prog R) (c c' : Collection) (r : R),
        always reads p -> run p c = Some (r, c') -> c' = c).
Proof.
  split; [| intros R p c c' r Hp; now apply reads_keep].
  refine (conj _ (conj _ (conj _ _))).
  - intros p. unfold getAllUsers, await. cbv zeta. cbn [bind always reads].
    split; [exact I |]. intros found. split; [exact I |].
    intros counted. destruct found, counted; exact I.
  - intros p. unfold searchUsers. cbv zeta.
    destruct (negb (truthyStr (q p))); [exact I |].
    destruct (searchQuery _ _); [| exact I].
    unfold await. cbn [bind always reads]. split; [exact I |].
    intros [users | e]; exact I.
  - intros id. unfold Lookup.getUserById.
    destruct (negb (isObjectId id)); [exact I |].
    unfold await. cbn [bind always reads]. split; [exact I |].
    intros [[d |] | e]; exact I.
  - unfold getUserStats, await. cbn [bind always reads]. split; [exact I |].
    intros [stats | e]; exact I.
Qed.

(** ** Look-up by identifier *)


Lemma hd_filter {A : Type} (f : A -> bool) (l : list A) :
  match hd_error (filter f l) with
  | Some x => In x l /\ f x = true
  | None => forall x : A, In x l -> f x = false
  end.
Proof.
  induction l as [| y l IH]; [intros x [] |].
  cbn [filter]. destruct (f y) eqn:E.
  - cbn [hd_error]. split; [now left | exact E].
  - destruct (hd_error (filter f l)) as [x |].
    + destruct IH as [H1 H2]. split; [now right | exact H2].
    + intros x [H | H]; [now subst x | now apply IH].
Qed.


Lemma read_handlers_only_read_witness :
  exists (r : Response) (c' : Collection),
    run (searchUsers (mkSearchParams (Some "chess") None)) [Sample.annDoc]
    = Some (r, c')
    /\ c' = [Sample.annDoc].
Proof.
  eexists. eexists. split; [reflexivity |].
  eapply (proj2 read_handlers_only_read Response
            (searchUsers (mkSearchParams (Some "chess") None))).
  - apply (proj1 (proj2 (proj1 read_handlers_only_read))).
  - reflexivity.
Defined.


(** ** Updates *)

Lemma select_other_email (id v : string) (c : Collection) :
  select [On FEmail (EqStr v); On FId (NeStr id)] c
  = Some (filter (fun d => emailIs v d && negb (hasId id d)) c).
Proof.
  induction c as [| d c IH]; [reflexivity |].
  cbn [select filter]. rewrite IH.
  unfold matches, allOpt, satisfies, holds, hasId. cbn [fold_right].
  now rewrite Bool.andb_true_r.
Qed.

(** X12. An update that sets an e-mail which, trimmed and put in lower
    case, is the stored e-mail of another user, one whose identifier is not
    the requested one even with the letter case of the hexadecimal digits
    put aside, is answered 409, and the collection is left as it was. *)
Theorem updateUser_email_conflict :
  forall (c : Collection) (id e : string) (body : UpdateData) (d : Doc),
    isObjectId id = true ->
    u_email body = Some e -> truthyStr (Some e) = true ->
    In d c -> sameId (_id d) id = false ->
    email (fields d) = Some (trim (toLowerCase e)) ->
    run (updateUser id body) c
    = Some (mkResponse 409 false "Email already exists for another user"
              NoPayload, c).
Proof.
  intros c id e body d Hid He Ht Hin Hne Hd.
  unfold run, updateUser. rewrite Hid, He, Ht. cbn [negb orDefault].
  unfold await. cbn [bind interp answer]. rewrite select_other_email.
  pose proof (hd_filter
                (fun d => emailIs (trim (toLowerCase e)) d && negb (hasId id d))
                c) as Hh.
  destruct (hd_error _) as [d' |]; [reflexivity |].
  specialize (Hh d Hin). cbv beta in Hh. unfold emailIs, hasId in Hh.
  rewrite Hd, String.eqb_refl, Hne in Hh. discriminate Hh.
Qed.

Lemma updateUser_email_conflict_witness :
  run (updateUser MoreSample.bobId
         (mkUpdate None (Some "  ANN@Example.com ") None None None None))
      [Sample.annDoc; MoreSample.bobDoc]
  = Some (mkResponse 409 false "Email already exists for another user"
            NoPayload, [Sample.annDoc; MoreSample.bobDoc]).
Proof.
  apply (updateUser_email_conflict _ _ "  ANN@Example.com " _ Sample.annDoc);
    try reflexivity.
  now left.
Defined.

Lemma replace_ids (id : string) (f : User -> User) (c : Collection) :
  map _id (replace id f c) = map _id c.
Proof.
  induction c as [| d c IH]; [reflexivity |].
  cbn [replace]. destruct (hasId id d); cbn [map _id]; [reflexivity |].
  now rewrite IH.
Qed.

Lemma replace_others (id : string) (f : User -> User) (c : Collection) (d : Doc) :
  In d c -> sameId (_id d) id = false -> In d (replace id f c).
Proof.
  induction c as [| d0 c IH]; [intros [] |].
  intros [H | H] Hne; cbn [replace].
  - subst d0. unfold hasId. rewrite Hne. now left.
  - destruct (hasId id d0); [now right | right; now apply IH].
Qed.

Lemma find_replace (id : string) (f : User -> User) (c : Collection) :
  find (hasId id) c <> None -> find (hasId id) (replace id f c) <> None.
Proof.
  induction c as [| d c IH]; [intros H; exact H |].
  cbn [find replace]. destruct (hasId id d) eqn:E.
  - intros _. cbn [find]. unfold hasId in *. cbn [_id]. rewrite E. discriminate.
  - intros H. cbn [find]. rewrite E. now apply IH.
Qed.

(** What [findByIdAndUpdate] answers, and the collection it leaves. *)
Lemma findByIdAndUpdate_cases (id : string) (upd : UpdateData)
      (c c' : Collection) (r : Result (option Doc)) :
  findByIdAndUpdate id upd c = Some (r, c') ->
  (c' = c /\ (forall d, r <> Ok (Some d)))
  \/ (exists (f : User -> User) (d : Doc), c' = replace id f c /\ r = Ok (Some d)).
Proof.
  unfold findByIdAndUpdate.
  destruct (negb (plainUpdate upd) || negb (entriesPass upd));
    [intros H; discriminate H |].
  destruct (castUpdateAge upd) as [[a | e] |]; [| | intros H; discriminate H].
  - destruct (validateUpdate upd a).
    + destruct (find (hasId id) c) eqn:Ef.
      * destruct (match u_email upd with
                  | Some v => emailTaken id (emailSetter v) c
                  | None => false
                  end).
        -- intros H. injection H as Hr Hc. subst. left.
           split; [reflexivity | intros d0 H; discriminate H].
        -- cbv zeta. intros H. injection H as Hr Hc. subst.
           assert (Hs : find (hasId id) c <> None) by (rewrite Ef; discriminate).
           apply (find_replace id (applyUpdate upd a)) in Hs.
           destruct (find (hasId id) (replace id (applyUpdate upd a) c)) as [d' |];
             [| contradiction].
           right. exists (applyUpdate upd a), d'. split; reflexivity.
      * intros H. injection H as Hr Hc. subst. left.
        split; [reflexivity | intros d0 H; discriminate H].
    + intros H. injection H as Hr Hc. subst. left.
      split; [reflexivity | intros d0 H; discriminate H].
  - intros H. injection H as Hr Hc. subst. left.
    split; [reflexivity | intros d0 H; discriminate H].
Qed.

Lemma run_findAndUpdate (id : string) (upd : UpdateData)
      (c c' : Collection) (r : Response) :
  run (findAndUpdate id upd) c = Some (r, c') ->
  exists x : Result (option Doc),
    findByIdAndUpdate id (cleanUpdate upd) c = Some (x, c')
    /\ (status r = 200 <-> exists d, x = Ok (Some d)).
Proof.
  unfold run, findAndUpdate, await. cbn [bind interp answer].
  destruct (findByIdAndUpdate id (cleanUpdate upd) c) as [[x c1] |];
    [| intros H; discriminate H].
  destruct x as [[d |] | e]; cbn [interp]; intros H; injection H as Hr Hc;
    subst r c1; eexists; (split; [reflexivity |]); cbn [status].
  - split; [intros _; now exists d | reflexivity].
  - split; [intros H; discriminate H | intros [d H]; discriminate H].
  - split; [destruct e; intros H; discriminate H | intros [d H]; discriminate H].
Qed.

(** The store call behind a run of [updateUser] that changes anything. *)
Lemma run_updateUser (id : string) (body : UpdateData)
      (c c' : Collection) (r : Response) :
  run (updateUser id body) c = Some (r, c') ->
  (c' = c /\ status r <> 200)
  \/ exists (upd : UpdateData) (x : Result (option Doc)),
       findByIdAndUpdate id upd c = Some (x, c')
       /\ (status r = 200 <-> exists d, x = Ok (Some d)).
Proof.
  unfold updateUser. destruct (negb (isObjectId id)).
  - unfold run. cbn [interp]. intros H. injection H as Hr Hc. subst.
    left. split; [reflexivity | discriminate].
  - cbv zeta. destruct (truthyStr (u_email body)).
    + unfold run, await. cbn [bind interp answer].
      rewrite select_other_email.
      destruct (hd_error _) as [d |]; cbn [interp].
      * intros H. injection H as Hr Hc. subst. left.
        split; [reflexivity | discriminate].
      * intros H. destruct (run_findAndUpdate _ _ _ _ _ H) as [x [Hx Hs]].
        right. eexists. exists x. split; [exact Hx | exact Hs].
    + intros H. destruct (run_findAndUpdate _ _ _ _ _ H) as [x [Hx Hs]].
      right. eexists. exists x. split; [exact Hx | exact Hs].
Qed.

(** X13. An update never adds or removes a document and never touches a
    document other than the one it names: the identifiers of the collection
    are the same afterwards, in the same order, and every document whose
    identifier is not the requested one, the letter case of the hexadecimal
    digits put aside, is still there. An update that is not answered 200
    leaves the whole collection as it was. *)
Theorem updateUser_touches_one :
  forall (id : string) (body : UpdateData) (c c' : Collection) (r : Response),
    run (updateUser id body) c = Some (r, c') ->
    map _id c' = map _id c
    /\ (forall d : Doc, In d c -> sameId (_id d) id = false -> In d c')
    /\ (status r <> 200 -> c' = c).
Proof.
  intros id body c c' r H.
  destruct (run_updateUser _ _ _ _ _ H) as [[Hc Hs] | [upd [x [Hx Hs]]]].
  - subst c'. repeat split; auto.
  - destruct (findByIdAndUpdate_cases _ _ _ _ _ Hx)
      as [[Hc Hn] | [f [d [Hc Hr]]]].
    + subst c'. repeat split; auto.
    + subst c' x. split; [apply replace_ids |].
      split; [intros d0 Hd Hne; now apply replace_others |].
      intros Hne. exfalso. apply Hne. apply Hs. now exists d.
Qed.

Lemma updateUser_touches_one_witness :
  exists (r : Response) (c' : Collection),
    run (updateUser Sample.annId
           (mkUpdate (Some "Ann B Lee") None None None None None))
        [Sample.annDoc; MoreSample.bobDoc] = Some (r, c')
    /\ map _id c' = [Sample.annId; MoreSample.bobId]
    /\ In MoreSample.bobDoc c'.
Proof.
  eexists. eexists. split; [reflexivity |].
  edestruct (updateUser_touches_one Sample.annId
               (mkUpdate (Some "Ann B Lee") None None None None None)
               [Sample.annDoc; MoreSample.bobDoc])
    as [Hids [Hothers _]]; [reflexivity |].
  split; [exact Hids |].
  apply Hothers; [right; now left | reflexivity].
Defined.



(** ** Paging *)

Lemma toDouble_small (z : Z) :
  (Z.abs z < 9007199254740992)%Z -> toDouble z = Int z.
Proof.
  intros H. unfold toDouble. cbv zeta.
  change (2 ^ 53)%Z with 9007199254740992%Z.
  destruct (Z.abs z <? 9007199254740992)%Z eqn:E; [reflexivity |].
  apply Z.ltb_ge in E. lia.
Qed.

Lemma mul_small (x y : Z) :
  (1 <= y)%Z -> (Z.abs (x * y) < 9007199254740992)%Z ->
  mul (Int x) (Int y) = Int (x * y).
Proof.
  intros Hy Hxy. unfold mul. cbn [isNaN negative finite orb].
  destruct (x * y =? 0)%Z eqn:E.
  - apply Z.eqb_eq in E. rewrite E.
    assert (Hx : x = 0%Z) by nia. subst x.
    replace (y <? 0)%Z with false by (symmetry; apply Z.ltb_ge; lia).
    reflexivity.
  - now apply toDouble_small.
Qed.

(** X15. For a page and a limit that are numbers, the limit at least 1 and
    the offset below 2^53 in magnitude, the offset sent to the store is
    (page - 1) * limit, and for a total that is a count of documents
    [hasNextPage] is true exactly when documents remain after the page:
    when the offset plus the limit is below the total. *)
Theorem hasNextPage_remaining :
  forall (p : ListParams) (pg lm total : Z),
    parseInt (orDefault (page p) "1") = Int pg ->
    parseInt (orDefault (limit p) "10") = Int lm -> (1 <= lm)%Z ->
    (Z.abs ((pg - 1) * lm) < 9007199254740992)%Z ->
    (0 <= total < 9007199254740992)%Z ->
    skipOf (listPlan p) = Int ((pg - 1) * lm)
    /\ (hasNextPage (paginate (listPlan p) total) = true
        <-> ((pg - 1) * lm + lm < total)%Z).
Proof.
  intros p pg lm total Hpg Hlm Hlm1 Hoff Htotal.
  assert (Hn : pageNumber (listPlan p) = Int pg) by exact Hpg.
  assert (Hs : pageSizeOf (listPlan p) = Int lm) by exact Hlm.
  split.
  - change (skipOf (listPlan p))
      with (mul (pred (pageNumber (listPlan p))) (pageSizeOf (listPlan p))).
    rewrite Hn, Hs. cbn [pred].
    rewrite toDouble_small by nia. now apply mul_small.
  - unfold paginate. cbn [hasNextPage]. rewrite Hn, Hs.
    destruct (UserControllerFacts.ceilDiv_positive total lm Hlm1)
      as [tp [Htp Hb]].
    rewrite Htp. unfold lt. cbn [finite]. rewrite Z.ltb_lt.
    split; intros H; nia.
Qed.

Lemma hasNextPage_remaining_witness :
  skipOf (listPlan (Sample.withPaging "3" "10")) = Int 20
  /\ hasNextPage (paginate (listPlan (Sample.withPaging "3" "10")) 31) = true.
Proof.
  destruct (hasNextPage_remaining (Sample.withPaging "3" "10") 3 10 31
              eq_refl eq_refl ltac:(lia) ltac:(simpl; lia) ltac:(lia))
    as [H1 H2].
  split; [exact H1 |]. apply H2. lia.
Defined.

(** X16. A limit of zero is not rejected. With the limit 0, [totalPages]
    is infinite and [hasNextPage] true on every page of a collection that
    holds a document, while on an empty one [totalPages] is [NaN] and
    [hasNextPage] false. With the limit -0, which [parseInt] reads as the
    zero with a minus sign, [totalPages] is minus infinity and [hasNextPage]
    false as soon as the collection holds a document. These are the
    metadata of the 200 that the handler answers once the store has
    answered both calls. *)
Theorem paginate_degenerate :
  forall (p : ListParams) (total pg : Z),
    parseInt (orDefault (page p) "1") = Int pg ->
    (0 <= total < 9007199254740992)%Z ->
    (parseInt (orDefault (limit p) "10") = Int 0 ->
     ((0 < total)%Z ->
      totalPages (paginate (listPlan p) total) = PosInf
      /\ hasNextPage (paginate (listPlan p) total) = true)
     /\ (total = 0%Z ->
         totalPages (paginate (listPlan p) total) = NaN
         /\ hasNextPage (paginate (listPlan p) total) = false))
    /\ (parseInt (orDefault (limit p) "10") = NegZero ->
        ((0 < total)%Z ->
         totalPages (paginate (listPlan p) total) = NegInf
         /\ hasNextPage (paginate (listPlan p) total) = false)
        /\ (total = 0%Z ->
            totalPages (paginate (listPlan p) total) = NaN
            /\ hasNextPage (paginate (listPlan p) total) = false))
    /\ (forall (S : Type) (h : Answers S) (s s1 s2 : S) (users : list Doc),
          h _ (Find (query (listPlan p))
                    (mkOptions (Some (sortOptions (listPlan p)))
                               (Some (skipOf (listPlan p)))
                               (Some (pageSizeOf (listPlan p))))) s
          = Some (Ok users, s1) ->
          h _ (CountDocuments (query (listPlan p))) s1 = Some (Ok total, s2) ->
          exists r : Response,
            interp h (getAllUsers p) s = Some (r, s2)
            /\ status r = 200
            /\ payload r
               = UserList users (paginate (listPlan p) total)
                   (negb (Nat.eqb (List.length (query (listPlan p))) 0))
                   (query (listPlan p))).
Proof.
  intros p total pg Hpg Htotal.
  assert (Hn : pageNumber (listPlan p) = Int pg) by exact Hpg.
  refine (conj _ (conj _ _)).
  - intros Hlm.
    assert (Hs : pageSizeOf (listPlan p) = Int 0) by exact Hlm.
    unfold paginate. cbn [totalPages hasNextPage]. rewrite Hn, Hs.
    cbn [ceilDiv]. split.
    + intros Ht. destruct (total =? 0)%Z eqn:E;
        [apply Z.eqb_eq in E; lia | split; reflexivity].
    + intros Ht. subst total. split; reflexivity.
  - intros Hlm.
    assert (Hs : pageSizeOf (listPlan p) = NegZero) by exact Hlm.
    unfold paginate. cbn [totalPages hasNextPage]. rewrite Hn, Hs.
    cbn [ceilDiv]. split.
    + intros Ht. destruct (total =? 0)%Z eqn:E;
        [apply Z.eqb_eq in E; lia | split; reflexivity].
    + intros Ht. subst total. split; reflexivity.
  - intros S h s s1 s2 users Hf Hc. eexists.
    split; [apply (UserControllerFacts.interp_getAllUsers
                     h p s s1 s2 users total Hf Hc) |].
    split; reflexivity.
Qed.

Lemma paginate_degenerate_witness :
  (totalPages (paginate (listPlan (Sample.withPaging "2" "0")) 7) = PosInf
   /\ hasNextPage (paginate (listPlan (Sample.withPaging "2" "0")) 7) = true)
  /\ (totalPages (paginate (listPlan (Sample.withPaging "2" "-0")) 7) = NegInf
      /\ hasNextPage (paginate (listPlan (Sample.withPaging "2" "-0")) 7) = false)
  /\ exists r : Response,
       run (getAllUsers (Sample.withPaging "1" "0")) [Sample.annDoc]
       = Some (r, [Sample.annDoc])
       /\ status r = 200
       /\ payload r
          = UserList [Sample.annDoc]
              (mkPagination (Int 1) (Int 0) 1 PosInf true false) false [].
Proof.
  split; [| split].
  - apply (proj1 (proj1 (paginate_degenerate (Sample.withPaging "2" "0") 7 2
                           eq_refl ltac:(lia)) eq_refl)).
    lia.
  - apply (proj1 (proj1 (proj2 (paginate_degenerate
                                  (Sample.withPaging "2" "-0") 7 2
                                  eq_refl ltac:(lia))) eq_refl)).
    lia.
  - exact (proj2 (proj2 (paginate_degenerate (Sample.withPaging "1" "0") 1 1
                           eq_refl ltac:(lia)))
             Collection answer [Sample.annDoc] [Sample.annDoc] [Sample.annDoc]
             [Sample.annDoc] eq_refl eq_refl).
Defined.

(** ** Search: exactly the documents that hold the text *)

Lemma literal_matchHere (ql sl rest : list ascii) :
  map lowerChar sl = (map lowerChar ql ++ rest)%list ->
  matchHere (map Lit ql) sl = true.
Proof.
  revert sl. induction ql as [| x ql IH]; intros sl H.
  - destruct sl; reflexivity.
  - destruct sl as [| c sl]; [discriminate H |].
    cbn [map app] in H. injection H as Hc Hrest.
    cbn [map matchHere atomMatches]. rewrite (IH sl Hrest), Bool.andb_true_r.
    apply Ascii.eqb_eq. now symmetry.
Qed.

Lemma literal_matchAnywhere (ql sl before after : list ascii) :
  map lowerChar sl = (before ++ map lowerChar ql ++ after)%list ->
  matchAnywhere (map Lit ql) sl = true.
Proof.
  revert sl. induction before as [| b before IH]; intros sl H.
  - cbn [app] in H. apply literal_matchHere in H.
    destruct sl; cbn [matchAnywhere]; now rewrite H.
  - destruct sl as [| c sl]; [discriminate H |].
    cbn [map app] in H. injection H as _ H.
    cbn [matchAnywhere]. rewrite (IH sl H). apply Bool.orb_true_r.
Qed.

Lemma regexTest_contains (s t : string) :
  Spec.plain s = true ->
  exists b : bool,
    regexTest s t = Some b /\ (b = true <-> Spec.containsIgnoringCase s t).
Proof.
  intros Hs. unfold regexTest.
  rewrite (UserControllerFacts.compile_plain _ Hs).
  eexists. split; [reflexivity |]. split.
  - apply UserControllerFacts.matchAnywhere_literal.
  - intros [before [after H]]. now apply (literal_matchAnywhere _ _ before after).
Qed.

Lemma anyOpt_exists {A : Type} (f : A -> option bool) (l : list A) :
  (forall x : A, exists b : bool, f x = Some b) ->
  exists b : bool,
    anyOpt f l = Some b
    /\ (b = true <-> exists x : A, In x l /\ f x = Some true).
Proof.
  intros Hf. induction l as [| x l IH].
  - exists false. split; [reflexivity |]. split; [intros H; discriminate H |].
    intros [x [[] _]].
  - destruct IH as [b' [Hb' Hw]]. destruct (Hf x) as [b Hb].
    exists (b || b')%bool. unfold anyOpt in *. cbn [fold_right].
    rewrite Hb, Hb'. split; [reflexivity |]. split.
    + intros H. apply Bool.orb_true_iff in H. destruct H as [H | H].
      * subst b. exists x. split; [now left | exact Hb].
      * destruct (proj1 Hw H) as [y [Hy Hfy]].
        exists y. split; [now right | exact Hfy].
    + intros [y [[Hy | Hy] Hfy]].
      * subst y. rewrite Hb in Hfy. injection Hfy as Hfy. now subst b.
      * rewrite (proj2 Hw (ex_intro _ y (conj Hy Hfy))). apply Bool.orb_true_r.
Qed.

Lemma select_exact (qr : Query) (P : Doc -> Prop) (c : Collection) :
  (forall d : Doc, exists b : bool, matches qr d = Some b /\ (b = true <-> P d)) ->
  exists l : list Doc,
    select qr c = Some l
    /\ (List.length l <= List.length c)%nat
    /\ forall d : Doc, In d l <-> In d c /\ P d.
Proof.
  intros Hm. induction c as [| d c IH].
  - exists []. split; [reflexivity |]. split; [apply le_n |].
    intros d. split; [intros [] | intros [[] _]].
  - destruct IH as [l [Hl [Hlen Hin]]]. destruct (Hm d) as [b [Hb HP]].
    exists (if b then d :: l else l). cbn [select]. rewrite Hb, Hl.
    split; [reflexivity |]. split.
    + destruct b; cbn [List.length]; lia.
    + intros d'. destruct b.
      * split.
        -- intros [H | H].
           ++ subst d'. split; [now left | now apply HP].
           ++ apply Hin in H. destruct H as [H1 H2]. split; [now right | exact H2].
        -- intros [[H | H] HPd].
           ++ now left.
           ++ right. apply Hin. now split.
      * split.
        -- intros H. apply Hin in H. destruct H as [H1 H2].
           split; [now right | exact H2].
        -- intros [[H | H] HPd].
           ++ subst d'. apply HP in HPd. discriminate HPd.
           ++ apply Hin. now split.
Qed.

Lemma one_clause (cl : Clause) (d : Doc) (b : bool) :
  satisfies cl d = Some b -> matches [cl] d = Some b.
Proof.
  intros H. unfold matches, allOpt. cbn [fold_right].
  now rewrite H, Bool.andb_true_r.
Qed.

Lemma holds_name (s : string) (d : Doc) :
  Spec.plain s = true ->
  exists b : bool,
    holds FName (Regex s) d = Some b /\ (b = true <-> Words.inName s d).
Proof.
  intros Hs. unfold holds, Words.inName.
  destruct (name (fields d)) as [n |].
  - destruct (regexTest_contains s n Hs) as [b [Hb Hc]].
    exists b. split; [exact Hb |]. split.
    + intros H. exists n. split; [reflexivity | now apply Hc].
    + intros [n' [Hn Hn']]. injection Hn as Hn. subst n'. now apply Hc.
  - destruct (regexTest_contains s EmptyString Hs) as [b [Hb _]].
    exists false. rewrite Hb. split; [reflexivity |].
    split; [intros H; discriminate H | intros [n [Hn _]]; discriminate Hn].
Qed.

Lemma holds_email (s : string) (d : Doc) :
  Spec.plain s = true ->
  exists b : bool,
    holds FEmail (Regex s) d = Some b /\ (b = true <-> Words.inEmail s d).
Proof.
  intros Hs. unfold holds, Words.inEmail.
  destruct (email (fields d)) as [n |].
  - destruct (regexTest_contains s n Hs) as [b [Hb Hc]].
    exists b. split; [exact Hb |]. split.
    + intros H. exists n. split; [reflexivity | now apply Hc].
    + intros [n' [Hn Hn']]. injection Hn as Hn. subst n'. now apply Hc.
  - destruct (regexTest_contains s EmptyString Hs) as [b [Hb _]].
    exists false. rewrite Hb. split; [reflexivity |].
    split; [intros H; discriminate H | intros [n [Hn _]]; discriminate Hn].
Qed.

Lemma holds_hobbies (s : string) (d : Doc) :
  Spec.plain s = true ->
  exists b : bool,
    holds FHobbies (Regex s) d = Some b /\ (b = true <-> Words.inHobbies s d).
Proof.
  intros Hs. unfold holds, Words.inHobbies.
  destruct (anyOpt_exists (regexTest s) (hobbies (fields d))) as [b [Hb Hw]].
  { intros h. destruct (regexTest_contains s h Hs) as [b [Hb _]]. now exists b. }
  exists b. split; [exact Hb |]. rewrite Hw. split.
  - intros [h [Hin Hh]]. exists h. split; [exact Hin |].
    destruct (regexTest_contains s h Hs) as [b' [Hb' Hc]].
    apply Hc. congruence.
  - intros [h [Hin Hh]]. exists h. split; [exact Hin |].
    destruct (regexTest_contains s h Hs) as [b' [Hb' Hc]].
    rewrite Hb'. f_equal. now apply Hc.
Qed.

Lemma searchQuery_matches (s f : string) (d : Doc) :
  Spec.plain s = true ->
  In f ["name"; "email"; "hobby"; "all"] ->
  exists qr : Query,
    searchQuery s f = Some qr
    /\ exists b : bool,
         matches qr d = Some b /\ (b = true <-> Words.mentions f s d).
Proof.
  intros Hs Hf.
  destruct (holds_name s d Hs) as [b1 [H1 P1]].
  destruct (holds_email s d Hs) as [b2 [H2 P2]].
  destruct (holds_hobbies s d Hs) as [b3 [H3 P3]].
  unfold Words.mentions.
  destruct Hf as [Hf | [Hf | [Hf | [Hf | []]]]]; subst f;
    eexists; (split; [reflexivity |]).
  - exists b1. split; [apply one_clause; exact H1 |]. rewrite P1.
    split; [intros H; left; now split |].
    intros [[_ H] | [[E _] | [[E _] | [E _]]]];
      [exact H | discriminate E | discriminate E | discriminate E].
  - exists b2. split; [apply one_clause; exact H2 |]. rewrite P2.
    split; [intros H; right; left; now split |].
    intros [[E _] | [[_ H] | [[E _] | [E _]]]];
      [discriminate E | exact H | discriminate E | discriminate E].
  - exists b3. split; [apply one_clause; exact H3 |]. rewrite P3.
    split; [intros H; right; right; left; now split |].
    intros [[E _] | [[E _] | [[_ H] | [E _]]]];
      [discriminate E | discriminate E | exact H | discriminate E].
  - exists (b1 || (b2 || (b3 || false)))%bool. split.
    + apply one_clause. unfold satisfies, anyOpt. cbn [fold_right fst snd].
      now rewrite H1, H2, H3.
    + rewrite Bool.orb_false_r, !Bool.orb_true_iff, P1, P2, P3.
      split; [intros H; right; right; right; now split |].
      intros [[E _] | [[E _] | [[E _] | [_ H]]]];
        [discriminate E | discriminate E | discriminate E | exact H].
Qed.

Lemma searchQuery_casts (s f : string) (qr : Query) :
  searchQuery s f = Some qr -> castFails qr = false.
Proof.
  unfold searchQuery. cbv zeta.
  destruct (String.eqb f "name"); [intros H; injection H as H; now subst qr |].
  destruct (String.eqb f "email"); [intros H; injection H as H; now subst qr |].
  destruct (String.eqb f "hobby"); [intros H; injection H as H; now subst qr |].
  destruct (String.eqb f "all"); [intros H; injection H as H; now subst qr |].
  intros H. discriminate H.
Qed.

(** X17. On a collection of at most 50 documents, a search for a text that
    holds no metacharacter of regular expressions returns exactly the
    documents that hold the text, letter case put aside, in the field asked
    for: in the name, in the e-mail, in one of the hobbies, or in any of the
    three when the field is all or is not given. *)
Theorem searchUsers_exact :
  forall (c : Collection) (p : SearchParams) (s f : string),
    q p = Some s -> s <> EmptyString -> Spec.plain s = true ->
    orDefault (field p) "all" = f ->
    In f ["name"; "email"; "hobby"; "all"] ->
    (List.length c <= 50)%nat ->
    exists (r : Response) (users : list Doc),
      run (searchUsers p) c = Some (r, c)
      /\ status r = 200
      /\ payload r = SearchResult users s f (Z.of_nat (List.length users))
      /\ forall d : Doc, In d users <-> In d c /\ Words.mentions f s d.
Proof.
  intros c p s f Hq Hne Hs Hf Hin Hlen.
  assert (Hqr : exists qr : Query,
             searchQuery s f = Some qr
             /\ forall d : Doc,
                  exists b : bool,
                    matches qr d = Some b /\ (b = true <-> Words.mentions f s d)).
  { destruct (searchQuery_matches s f Sample.annDoc Hs Hin) as [qr [Hqr _]].
    exists qr. split; [exact Hqr |]. intros d.
    destruct (searchQuery_matches s f d Hs Hin) as [qr' [Hqr' Hm]].
    rewrite Hqr in Hqr'. injection Hqr' as Hqr'. now subst qr'. }
  destruct Hqr as [qr [Hqr Hm]].
  destruct (select_exact qr _ c Hm) as [l [Hl [Hll Hmem]]].
  unfold run, searchUsers. cbv zeta. rewrite Hq, Hf.
  apply String.eqb_neq in Hne. unfold truthyStr. rewrite Hne.
  cbn [negb orDefault]. rewrite Hqr.
  unfold await. cbn [bind interp answer].
  change (modelled (mkOptions None None (Some (Int 50)))) with true.
  cbn [negb]. rewrite (searchQuery_casts _ _ _ Hqr), Hl.
  cbn [sort skip Mongo.limit applySort applySkip]. unfold applyLimit.
  cbn [Z.ltb Z.compare bind interp].
  change (Z.to_nat 50) with 50%nat.
  rewrite firstn_all2 by lia.
  eexists. exists l. split; [reflexivity |].
  split; [reflexivity |]. split; [reflexivity | exact Hmem].
Qed.

Lemma searchUsers_exact_witness :
  exists (r : Response) (users : list Doc),
    run (searchUsers (mkSearchParams (Some "LEE") None))
        [Sample.annDoc; MoreSample.bobDoc]
    = Some (r, [Sample.annDoc; MoreSample.bobDoc])
    /\ status r = 200
    /\ forall d : Doc,
         In d users
         <-> In d [Sample.annDoc; MoreSample.bobDoc] /\ Words.mentions "all" "LEE" d.
Proof.
  destruct (searchUsers_exact [Sample.annDoc; MoreSample.bobDoc]
              (mkSearchParams (Some "LEE") None) "LEE" "all"
              eq_refl
              (fun H : "LEE" = EmptyString =>
                 eq_ind "LEE"
                   (fun x => match x with EmptyString => False | _ => True end)
                   I EmptyString H)
              eq_refl eq_refl
              (or_intror (or_intror (or_intror (or_introl eq_refl))))
              ltac:(simpl; lia))
    as [r [users [H1 [H2 [_ H4]]]]].
  exists r, users. split; [exact H1 |]. split; [exact H2 | exact H4].
Defined.

(** ** Statistics *)

Lemma countIf_length (f : Doc -> bool) (c : Collection) :
  orZero (countIf f c) = Z.of_nat (List.length (filter f c)).
Proof.
  unfold countIf. destruct (filter f c); reflexivity.
Qed.

Lemma filter_all (c : Collection) : filter (fun _ : Doc => true) c = c.
Proof.
  induction c as [| d c IH]; [reflexivity |]. cbn [filter]. now rewrite IH.
Qed.

Lemma filter_split (f : Doc -> bool) (c : Collection) :
  List.length c
  = (List.length (filter f c) + List.length (filter (fun d => negb (f d)) c))%nat.
Proof.
  induction c as [| d c IH]; [reflexivity |].
  cbn [filter]. destruct (f d); cbn [negb List.length]; lia.
Qed.

Lemma fold_min_le (s : Z) (l : list Z) :
  (fold_right Z.min s l <= s)%Z
  /\ forall x : Z, In x l -> (fold_right Z.min s l <= x)%Z.
Proof.
  induction l as [| y l [IH1 IH2]]; [split; [apply Z.le_refl | intros x []] |].
  cbn [fold_right]. split; [lia |].
  intros x [H | H]; [subst x; lia | specialize (IH2 x H); lia].
Qed.

Lemma fold_max_ge (s : Z) (l : list Z) :
  (s <= fold_right Z.max s l)%Z
  /\ forall x : Z, In x l -> (x <= fold_right Z.max s l)%Z.
Proof.
  induction l as [| y l [IH1 IH2]]; [split; [apply Z.le_refl | intros x []] |].
  cbn [fold_right]. split; [lia |].
  intros x [H | H]; [subst x; lia | specialize (IH2 x H); lia].
Qed.

(** X18. The statistics of a collection count its documents, its active
    documents and, as the difference of the two, exactly its inactive
    documents; the lowest and the highest score they report frame the stored
    score of every document. On an empty collection every figure is 0. *)
Theorem getUserStats_totals :
  forall c : Collection,
    exists data : StatsData,
      run getUserStats c
      = Some (mkResponse 200 true "User statistics retrieved successfully"
                (Stats data), c)
      /\ users data = Z.of_nat (List.length c)
      /\ active data = Z.of_nat (List.length (Words.activeOnes c))
      /\ inactive data = Z.of_nat (List.length (Words.inactiveOnes c))
      /\ (forall d : Doc,
            In d c ->
            (profileMinScore data <= profileScore (fields d)
             <= profileMaxScore data)%Z)
      /\ (c = [] -> data = mkStatsData 0 0 0 0 0).
Proof.
  intros c. eexists. split; [reflexivity |].
  unfold formatStats, aggregate.
  cbn [users active inactive profileMinScore profileMaxScore
       totalCount activeCount profileScores].
  rewrite !countIf_length, filter_all.
  split; [reflexivity |]. split; [reflexivity |]. split.
  - unfold Words.inactiveOnes.
    rewrite (filter_split (fun d => isActive (fields d)) c). lia.
  - split; [| intros Hc; subst c; reflexivity].
    intros d Hd. unfold scoreGroup.
    assert (Hs : In (profileScore (fields d))
                    (map (fun d => profileScore (fields d)) c))
      by (apply in_map_iff; now exists d).
    destruct (map (fun d => profileScore (fields d)) c) as [| s l];
      [destruct Hs |].
    cbn [option_map orZero minScore maxScore].
    destruct (fold_min_le s l) as [M1 M2].
    destruct (fold_max_ge s l) as [X1 X2].
    destruct Hs as [Hs | Hs]; [subst s; lia |].
    specialize (M2 _ Hs). specialize (X2 _ Hs). lia.
Qed.

Lemma getUserStats_totals_witness :
  exists data : StatsData,
    run getUserStats [Sample.annDoc; MoreSample.bobDoc]
    = Some (mkResponse 200 true "User statistics retrieved successfully"
              (Stats data), [Sample.annDoc; MoreSample.bobDoc])
    /\ inactive data = 1%Z
    /\ (profileMinScore data <= 53 <= profileMaxScore data)%Z.
Proof.
  destruct (getUserStats_totals [Sample.annDoc; MoreSample.bobDoc])
    as [data [H1 [_ [_ [H4 [H5 _]]]]]].
  exists data. split; [exact H1 |]. split; [exact H4 |].
  apply (H5 MoreSample.bobDoc). right. now left.
Defined.

End ControllerExtras.

(* ===================================================================== *)
(** * Properties of the error handler and of the connection manager *)
(* ===================================================================== *)

Module MiddlewareExtras.

Import JS ErrorHandler.
Local Open Scope string_scope.

(** ** The error handler *)

(** X19. A request that no route serves is answered 404 by the error
    handler, with the requested URL in the message and no field errors; the
    stack of the error is part of the answer in development only. *)
Theorem notFound_handled :
  forall (development : bool) (req : Req) (trace : string),
    errorHandler development (notFound req trace) req
    = Some (mkErrorResponse 404 false ("Not Found - " ++ originalUrl req)
              (path req) (method req) None
              (if development then Some (Some trace) else None)).
Proof.
  intros development req trace. destruct development; reflexivity.
Qed.

(** X20. An error that carries the code 11000 and the pattern of the index
    is answered 409 with 'Duplicate key error' and one field error, on the
    first key of the pattern, whatever status and message the error has and
    even when it is a validation error with field messages of its own;
    only the two token errors take precedence. *)
Theorem errorHandler_duplicate :
  forall (development : bool) (err : Err) (req : Req) (keys : list string),
    codeIs err 11000 = true ->
    e_keyPattern err = Some keys ->
    nameIs err "JsonWebTokenError" = false ->
    nameIs err "TokenExpiredError" = false ->
    (nameIs err "ValidationError" = true -> e_errors err <> None) ->
    let field := match keys with k :: _ => k | [] => "undefined" end in
    errorHandler development err req
    = Some (mkErrorResponse 409 false "Duplicate key error"
              (path req) (method req)
              (Some [(field, "This " ++ field ++ " already exists")])
              (if development then Some (e_stack err) else None)).
Proof.
  intros development err req keys Hcode Hkeys Hj Ht Hv field.
  unfold errorHandler. cbv zeta. rewrite Hcode, Hkeys, Hj, Ht.
  destruct (nameIs err "ValidationError") eqn:Ev.
  - destruct (e_errors err) as [es |]; [reflexivity |].
    exfalso. now apply Hv.
  - reflexivity.
Qed.

Lemma errorHandler_duplicate_witness :
  errorHandler false MoreSample.duplicate MoreSample.missingRoute
  = Some (mkErrorResponse 409 false "Duplicate key error" "/api/nowhere" "GET"
            (Some [("email", "This email already exists")]) None).
Proof.
  apply (errorHandler_duplicate false MoreSample.duplicate
           MoreSample.missingRoute ["email"]);
    try reflexivity.
  intros _ H. discriminate H.
Defined.

(** X21. The error handler fails to answer, throwing itself, in two cases
    only: a validation error without its [errors], and an error with the
    code 11000 without its [keyPattern]. When it answers, [success] is
    false, and outside development the answer never carries the stack. *)
Theorem errorHandler_answers :
  forall (development : bool) (err : Err) (req : Req),
    (errorHandler development err req = None
     <-> (nameIs err "ValidationError" = true /\ e_errors err = None)
         \/ (codeIs err 11000 = true /\ e_keyPattern err = None))
    /\ (forall resp : ErrorResponse,
          errorHandler development err req = Some resp ->
          success resp = false
          /\ (development = false -> stack resp = None)).
Proof.
  intros development err req. unfold errorHandler. cbv zeta.
  destruct (nameIs err "ValidationError") eqn:Ev;
    destruct (e_errors err) as [es |] eqn:Ee;
    destruct (codeIs err 11000) eqn:Ec;
    destruct (e_keyPattern err) as [keys |] eqn:Ek;
    (split;
     [ split;
       [ intros H; first [discriminate H | left; now split | right; now split]
       | intros [[H1 H2] | [H1 H2]];
         first [reflexivity | discriminate H1 | discriminate H2] ]
     | intros resp H; first [discriminate H |
         injection H as H; subst resp; cbn [success stack];
         split; [reflexivity | intros Hd; now rewrite Hd] ] ]).
Qed.

Lemma errorHandler_answers_witness :
  errorHandler true
    (mkErr None None (Some "ValidationError") None None None None None)
    MoreSample.missingRoute = None
  /\ exists resp : ErrorResponse,
       errorHandler false MoreSample.duplicate MoreSample.missingRoute = Some resp
       /\ success resp = false /\ stack resp = None.
Proof.
  split.
  - apply (proj1 (errorHandler_answers true
                    (mkErr None None (Some "ValidationError") None None None
                           None None)
                    MoreSample.missingRoute)).
    left. split; reflexivity.
  - eexists. split; [reflexivity |].
    edestruct (proj2 (errorHandler_answers false MoreSample.duplicate
                        MoreSample.missingRoute)) as [H1 H2]; [reflexivity |].
    split; [exact H1 | now apply H2].
Defined.

(** ** The connection manager *)




(** X23. Without an address in the environment, or with an empty one,
    [connect] on a manager that has not failed yet never dials: it runs its
    body three times, counting three failures, and exits the process. *)
Theorem connect_without_address :
  forall (uri : option string) (outcomes : list bool)
         (db : Database.DatabaseConnection),
    truthyStr uri = false ->
    Database.retryCount db = 0%Z -> Database.maxRetries db = 3%Z ->
    Database.connect 3 uri outcomes db
    = Some (Database.Exited
              (Database.mkDatabase (Database.isConnected db) 3 3),
            [], outcomes).
Proof.
  intros uri outcomes db Hu Hr Hm.
  destruct db as [ic mr rc]. cbn [Database.retryCount Database.maxRetries] in Hr, Hm.
  subst rc mr.
  destruct uri as [u |]; cbn [Database.connect]; rewrite ?Hu; reflexivity.
Qed.

Lemma connect_without_address_witness :
  Database.connect 3 None [true] Database.fresh
  = Some (Database.Exited (Database.mkDatabase false 3 3), [], [true]).
Proof.
  apply (connect_without_address None [true] Database.fresh); reflexivity.
Defined.

End MiddlewareExtras.

(* ===================================================================== *)
(** * What an update stores *)
(* ===================================================================== *)

Module UpdateExtras.

Import JS Model Mongo Store UserController.
Local Open Scope string_scope.

Lemma report_nil (p : Path) (e : option string) : report p e = [] -> e = None.
Proof. destruct e; [intros H; discriminate H | reflexivity]. Qed.

Lemma validateUpdate_nil (upd : UpdateData) (a : option (option Z)) :
  validateUpdate upd a = [] ->
  (forall v, u_name upd = Some v -> validateName (Some (nameSetter v)) = None)
  /\ (forall v, u_email upd = Some v -> validateEmail (Some (emailSetter v)) = None)
  /\ (forall v, a = Some v -> validateAge v = None)
  /\ (forall v, u_hobbies upd = Some v -> validateHobbies v = None)
  /\ (forall v, u_profileScore upd = Some v -> validateProfileScore v = None).
Proof.
  unfold validateUpdate. intros H.
  apply app_eq_nil in H. destruct H as [H1 H].
  apply app_eq_nil in H. destruct H as [H2 H].
  apply app_eq_nil in H. destruct H as [H3 H].
  apply app_eq_nil in H. destruct H as [H4 H5].
  repeat split; intros v Hv; rewrite Hv in *;
    first [ exact (report_nil _ _ H1) | exact (report_nil _ _ H2)
          | exact (report_nil _ _ H3) | exact (report_nil _ _ H4)
          | exact (report_nil _ _ H5) ].
Qed.

(** The update that reached the store and changed the collection. *)
Lemma run_updateUser_changed (id : string) (body : UpdateData)
      (c c' : Collection) (r : Response) :
  run (updateUser id body) c = Some (r, c') ->
  c' = c
  \/ exists (upd : UpdateData) (a : option (option Z)),
       c' = replace id (applyUpdate upd a) c
       /\ validateUpdate upd a = []
       /\ u_profileScore upd = u_profileScore body.
Proof.
  assert (Hstore : forall upd x,
             findByIdAndUpdate id upd c = Some (x, c') ->
             c' = c
             \/ exists a, c' = replace id (applyUpdate upd a) c
                          /\ validateUpdate upd a = []).
  { intros upd x. unfold findByIdAndUpdate.
    destruct (negb (plainUpdate upd) || negb (entriesPass upd));
    [intros H; discriminate H |].
    destruct (castUpdateAge upd) as [[a | e] |]; [| | intros H; discriminate H].
    - destruct (validateUpdate upd a) eqn:Ev.
      + destruct (find (hasId id) c).
        * destruct (match u_email upd with
                    | Some v => emailTaken id (emailSetter v) c
                    | None => false
                    end).
          -- intros H. injection H as _ H. now left.
          -- cbv zeta. intros H. injection H as _ H. right. exists a.
             split; [now symmetry | exact Ev].
        * intros H. injection H as _ H. now left.
      + intros H. injection H as _ H. now left.
    - intros H. injection H as _ H. now left. }
  assert (Hfin : forall upd,
             run (findAndUpdate id upd) c = Some (r, c') ->
             c' = c
             \/ exists a, c' = replace id (applyUpdate (cleanUpdate upd) a) c
                          /\ validateUpdate (cleanUpdate upd) a = []).
  { intros upd. unfold run, findAndUpdate, await. cbn [bind interp answer].
    destruct (findByIdAndUpdate id (cleanUpdate upd) c) as [[x c1] |] eqn:E;
      [| intros H; discriminate H].
    intros H.
    assert (Hc : c1 = c').
    { destruct x as [[d |] | e]; cbn [interp] in H; now injection H as _ H. }
    subst c1. apply (Hstore _ _ E). }
  unfold updateUser. destruct (negb (isObjectId id)).
  - unfold run. cbn [interp]. intros H. injection H as _ H. now left.
  - cbv zeta. destruct (truthyStr (u_email body)).
    + unfold run, await. cbn [bind interp answer].
      destruct (select _ c) as [l |]; [| intros H; discriminate H].
      destruct (hd_error l); cbn [interp].
      * intros H. injection H as _ H. now left.
      * intros H. destruct (Hfin _ H) as [Hc | [a [Hc Hv]]]; [now left |].
        right. eexists. exists a. split; [exact Hc |].
        split; [exact Hv | reflexivity].
    + intros H. destruct (Hfin _ H) as [Hc | [a [Hc Hv]]]; [now left |].
      right. eexists. exists a. split; [exact Hc |].
      split; [exact Hv | reflexivity].
Qed.




Lemma sound_applyUpdate (upd : UpdateData) (a : option (option Z)) (u : User) :
  validateUpdate upd a = [] -> Words.sound u -> Words.sound (applyUpdate upd a u).
Proof.
  intros Hv [S1 [S2 [S3 [S4 S5]]]].
  destruct (validateUpdate_nil _ _ Hv) as [V1 [V2 [V3 [V4 V5]]]].
  unfold Words.sound, applyUpdate.
  destruct (u_name upd) as [n |] eqn:E1; destruct (u_email upd) as [e |] eqn:E2;
    destruct a as [a |]; destruct (u_hobbies upd) as [hs |] eqn:E4;
    destruct (u_isActive upd); destruct (u_profileScore upd) as [ps |] eqn:E5;
    cbn [name email age hobbies profileScore set_name set_email set_age
         set_hobbies set_isActive set_profileScore];
    repeat split;
    first [ assumption
          | now apply V1 | now apply V2 | now apply V3 | now apply V5
          | unfold validateHobbies; rewrite length_map;
            now apply (V4 hs eq_refl) ].
Qed.

(** X25. An update whose body holds only fields of the schema, the hobbies
    as an array, never stores a name, an e-mail, an age, a number of hobbies
    or a score that the validators of the schema reject: when every document
    of the collection passes them before the update, every document passes
    them afterwards. A body with an update operator or another key is not
    covered. *)
Theorem updateUser_keeps_sound :
  forall (id : string) (body : UpdateData) (c c' : Collection) (r : Response),
    u_hobbiesOther body = None -> u_rest body = [] ->
    (forall d : Doc, In d c -> Words.sound (fields d)) ->
    run (updateUser id body) c = Some (r, c') ->
    forall d' : Doc, In d' c' -> Words.sound (fields d').
Proof.
  intros id body c c' r _ _ Hs H d' Hd'.
  destruct (run_updateUser_changed _ _ _ _ _ H) as [Hc | [upd [a [Hc [Hv _]]]]].
  - subst c'. now apply Hs.
  - subst c'. apply UserControllerFacts.In_replace in Hd'.
    destruct Hd' as [Hd' | [d [Hd Heq]]]; [now apply Hs |].
    subst d'. cbn [fields]. apply (sound_applyUpdate _ _ _ Hv). now apply Hs.
Qed.

Lemma updateUser_keeps_sound_witness :
  exists (r : Response) (c' : Collection),
    run (updateUser Sample.annId
           (mkUpdate (Some " Ann B Lee ") None (Some (JStr "41")) None None None))
        [Sample.annDoc] = Some (r, c')
    /\ forall d' : Doc, In d' c' -> Words.sound (fields d').
Proof.
  eexists. eexists. split; [reflexivity |].
  eapply (updateUser_keeps_sound Sample.annId
            (mkUpdate (Some " Ann B Lee ") None (Some (JStr "41")) None None None)
            [Sample.annDoc]).
  - reflexivity.
  - reflexivity.
  - intros d [Hd | []]. subst d. repeat split.
  - reflexivity.
Defined.

End UpdateExtras.
